(** * Global Volcano Explorer: the data pipeline of [CS230_Final.py]

    The program is a Streamlit dashboard over one pandas table.  This
    development embeds the data part of it: [load_data], the boolean-mask
    selections of [query1] .. [query4], [count_and_average_height],
    [get_named_volcanoes] and the [value_counts().head(10)] summary, and
    proves the properties the specification states about them.

    Modelling conventions.
    - A DataFrame is the list of its rows in index order; a Series is the
      list of one field of those rows.  The columns the modelled code
      reads are record fields; the required columns are taken to be
      present (the [KeyError] of a missing column is not modelled) and
      latitude/longitude, which only the map widgets read, are left out.
    - A missing cell ([NaN], [pd.NA], an empty spreadsheet cell) is [None].
    - A cell of the name, region, type, setting and eruption columns is a
      string or missing.  For the eruption column the dtype the reader
      gives it is modelled too ([read_dtype]), because the [.str]
      accessor of [load_data] depends on it: a column in which no cell
      holds text is read as [float64], and [.str] raises on it.
    - Text is a [string] of 8-bit characters.  On that range the regular
      expression class [\d] is exactly the ten characters ['0'] .. ['9'].
    - Elevations and years are whole numbers ([Z]); the mean is kept as an
      exact rational, [None] standing for [NaN].  The rounding of the
      float64 division is not modelled.
    - Python exceptions are the [Raise] results of a small error monad. *)

From Stdlib Require Import List String Ascii Bool Arith ZArith QArith Lia.
From Stdlib Require Import Permutation Sorted.
Import ListNotations.

Local Open Scope string_scope.
Local Open Scope list_scope.

(** ** Exceptions *)

Inductive exn : Type :=
| TypeError
| ValueError
| AttributeError.

Inductive result (A : Type) : Type :=
| Ok (a : A)
| Raise (e : exn).

Arguments Ok {A} a.
Arguments Raise {A} e.

Definition bind {A B : Type} (m : result A) (k : A -> result B) : result B :=
  match m with
  | Ok a => k a
  | Raise e => Raise e
  end.

Notation "x <- m ;; k" := (bind m (fun x => k))
  (at level 61, m at next level, right associativity).

(** ** Text helpers *)

(** [\d] on 8-bit text. *)
Definition is_digit (c : ascii) : bool :=
  ((48 <=? nat_of_ascii c) && (nat_of_ascii c <=? 57))%nat.

Definition digit_value (c : ascii) : Z :=
  Z.of_nat (nat_of_ascii c) - 48.

(** A match of [\d{4}] anchored at the head of [s]. *)
Definition match_d4 (s : string) : option string :=
  match s with
  | String a (String b (String c (String d _))) =>
      if is_digit a && is_digit b && is_digit c && is_digit d
      then Some (String a (String b (String c (String d EmptyString))))
      else None
  | _ => None
  end.

(** [re.search(r'(\d{4})', s)]: the leftmost match, group 1. *)
Fixpoint re_search_d4 (s : string) : option string :=
  match match_d4 s with
  | Some m => Some m
  | None =>
      match s with
      | EmptyString => None
      | String _ rest => re_search_d4 rest
      end
  end.

(** [pat in s] for two Python strings. *)
Fixpoint str_contains (pat s : string) : bool :=
  if String.prefix pat s then true
  else match s with
       | EmptyString => false
       | String _ rest => str_contains pat rest
       end.

(** Decimal reading of a run of digits, most significant first. *)
Fixpoint parse_digits (acc : Z) (s : string) : option Z :=
  match s with
  | EmptyString => Some acc
  | String c rest =>
      if is_digit c then parse_digits (10 * acc + digit_value c) rest
      else None
  end.

Definition parse_decimal (s : string) : option Z :=
  match s with
  | EmptyString => None
  | _ => parse_digits 0 s
  end.

(** ** Series operations of [load_data] *)

(** [Series.replace(to_replace, pd.NA)] with a list of exact values. *)
Definition replace_na (to_replace : list string) (cell : option string)
  : option string :=
  match cell with
  | None => None
  | Some s => if existsb (String.eqb s) to_replace then None else Some s
  end.

Definition series_replace (to_replace : list string)
  (col : list (option string)) : list (option string) :=
  map (replace_na to_replace) col.

(** The dtype [pd.read_excel] gives a column whose cells are text or
    empty: [object] when some cell holds text, and also when the sheet
    has no data row; [float64], every cell being [NaN], when the sheet
    has rows and the column is empty throughout. *)
Inductive dtype : Type :=
| dtype_object
| dtype_float64.

Definition notna_cell {A : Type} (cell : option A) : bool :=
  match cell with
  | Some _ => true
  | None => false
  end.

Definition read_dtype (col : list (option string)) : dtype :=
  match col with
  | [] => dtype_object
  | _ :: _ => if existsb notna_cell col then dtype_object else dtype_float64
  end.

(** [Series.str.extract(r'(\d{4})')[0]].  The [.str] accessor exists on
    text columns only: on a [float64] column it raises [AttributeError].
    On a text column a missing cell stays missing and a cell without a
    match becomes missing. *)
Definition str_extract_d4 (d : dtype) (col : list (option string))
  : result (list (option string)) :=
  match d with
  | dtype_float64 => Raise AttributeError
  | dtype_object =>
      Ok (map (fun cell => match cell with
                           | None => None
                           | Some s => re_search_d4 s
                           end) col)
  end.

Inductive errors_mode : Type :=
| errors_raise
| errors_coerce.

(** [pd.to_numeric] on one value.  pandas also reads signs, fractions and
    exponents; the values reaching it here are runs of digits or missing
    (lemma [re_search_d4_parses]), so only the decimal reading is modelled
    and every other text counts as unparseable. *)
Definition to_numeric_value (errors : errors_mode) (cell : option string)
  : result (option Z) :=
  match cell with
  | None => Ok None
  | Some s =>
      match parse_decimal s with
      | Some n => Ok (Some n)
      | None =>
          match errors with
          | errors_raise => Raise ValueError
          | errors_coerce => Ok None
          end
      end
  end.

Fixpoint to_numeric (errors : errors_mode) (col : list (option string))
  : result (list (option Z)) :=
  match col with
  | [] => Ok []
  | cell :: rest =>
      v <- to_numeric_value errors cell ;;
      vs <- to_numeric errors rest ;;
      Ok (v :: vs)
  end.

(** ** The table *)

(** A row of [volcanoes.xlsx] as [pd.read_excel] delivers it. *)
Record RawRow : Type := mkRawRow {
  raw_volcano_name : option string;
  raw_country : option string;
  raw_volcanic_region : option string;
  raw_primary_volcano_type : option string;
  raw_tectonic_setting : option string;
  raw_elevation : option Z;
  raw_last_known_eruption : option string
}.

(** A row of the table [load_data] returns. *)
Record Row : Type := mkRow {
  volcano_name : option string;
  country : option string;
  volcanic_region : option string;
  primary_volcano_type : option string;
  tectonic_setting : option string;
  elevation : option Z;
  last_known_eruption : option string;
  year_erupted : option Z
}.

Definition DataFrame : Type := list Row.

Definition eruption_sentinels : list string :=
  ["Unknown"; "?"; "No data"; ""].

(** Writing the two computed columns back, row by row. *)
Definition assign_row (r : RawRow) (cols : option string * option Z) : Row :=
  {| volcano_name := raw_volcano_name r;
     country := raw_country r;
     volcanic_region := raw_volcanic_region r;
     primary_volcano_type := raw_primary_volcano_type r;
     tectonic_setting := raw_tectonic_setting r;
     elevation := raw_elevation r;
     last_known_eruption := fst cols;
     year_erupted := snd cols |}.

Fixpoint assign_columns (raw : list RawRow) (eruption : list (option string))
  (years : list (option Z)) : DataFrame :=
  match raw, eruption, years with
  | r :: raw', e :: eruption', y :: years' =>
      assign_row r (e, y) :: assign_columns raw' eruption' years'
  | _, _, _ => []
  end.

(** [load_data] (lines 40-45), after the spreadsheet has been read.
    [replace] keeps the dtype the column was read with. *)
Definition load_data (raw : list RawRow) : result DataFrame :=
  let read := map raw_last_known_eruption raw in
  let eruption := series_replace eruption_sentinels read in
  extracted <- str_extract_d4 (read_dtype read) eruption ;;
  years <- to_numeric errors_coerce extracted ;;
  Ok (assign_columns raw eruption years).

(** What [load_data] computes for one row when it returns (lemma
    [load_data_rows]). *)
Definition extract_year (text : option string) : option Z :=
  match text with
  | None => None
  | Some s =>
      match re_search_d4 s with
      | None => None
      | Some m => parse_decimal m
      end
  end.

Definition normalize_row (r : RawRow) : Row :=
  let eruption := replace_na eruption_sentinels (raw_last_known_eruption r) in
  assign_row r (eruption, extract_year eruption).

(** ** Boolean masks and row selection *)

(** [col == v]: a missing cell compares false. *)
Definition series_eq (col : list (option string)) (v : string) : list bool :=
  map (fun cell => match cell with
                   | Some s => String.eqb s v
                   | None => false
                   end) col.

(** [col >= h]: a missing cell compares false. *)
Definition series_ge (col : list (option Z)) (h : Z) : list bool :=
  map (fun cell => match cell with
                   | Some v => (h <=? v)%Z
                   | None => false
                   end) col.

(** [col.between(left, right)], both ends included. *)
Definition series_between (col : list (option Z)) (left right : Z)
  : list bool :=
  map (fun cell => match cell with
                   | Some v => ((left <=? v) && (v <=? right))%Z
                   | None => false
                   end) col.

(** [col.isin(values)]. *)
Definition series_isin (col : list (option string)) (values : list string)
  : list bool :=
  map (fun cell => match cell with
                   | Some s => existsb (String.eqb s) values
                   | None => false
                   end) col.

(** [col.notna()]. *)
Definition series_notna {A : Type} (col : list (option A)) : list bool :=
  map (fun cell => match cell with
                   | Some _ => true
                   | None => false
                   end) col.

(** [m1 & m2], element by element. *)
Definition mask_and (m1 m2 : list bool) : list bool :=
  map (fun p => fst p && snd p) (combine m1 m2).

(** [df[mask]]: the rows whose mask entry is [True], in table order.
    Every mask below is built from a column of the same table, so the two
    lengths agree. *)
Fixpoint getitem_mask {A : Type} (df : list A) (mask : list bool) : list A :=
  match df, mask with
  | r :: df', b :: mask' =>
      if b then r :: getitem_mask df' mask' else getitem_mask df' mask'
  | _, _ => []
  end.

(** ** The filters of the query pages *)

Definition region_placeholder : string := "-- Please select a region --".
Definition setting_placeholder : string :=
  "-- Please select a tectonic setting --".

(** [df[df["volcanic region"] == region]] (lines 34, 97, 192). *)
Definition select_region (df : DataFrame) (region : string) : DataFrame :=
  getitem_mask df (series_eq (map volcanic_region df) region).

(** Line 97 of [query1] (and lines 191-192 of [query4]). *)
Definition filterByRegion (df : DataFrame) (region : string) : DataFrame :=
  if String.eqb region region_placeholder then df
  else select_region df region.

(** Line 125 of [query2]. *)
Definition filterByMinElevation (df : DataFrame) (height : Z) : DataFrame :=
  getitem_mask df (series_ge (map elevation df) height).

(** Lines 124-128 of [query2]. *)
Definition query2_filtered (df : DataFrame) (region : string) (height : Z)
  : DataFrame :=
  if String.eqb region region_placeholder then
    getitem_mask df (series_ge (map elevation df) height)
  else
    getitem_mask df
      (mask_and (series_eq (map volcanic_region df) region)
                (series_ge (map elevation df) height)).

(** Line 153 of [query3], the branch with no tectonic setting chosen. *)
Definition filterByYearRange (df : DataFrame) (min_year max_year : Z)
  : DataFrame :=
  getitem_mask df (series_between (map year_erupted df) min_year max_year).

(** Lines 153-154 of [query3]. *)
Definition query3_filtered (df : DataFrame) (years : Z * Z) (setting : string)
  : DataFrame :=
  if String.eqb setting setting_placeholder then
    getitem_mask df
      (series_between (map year_erupted df) (fst years) (snd years))
  else
    getitem_mask df
      (mask_and
         (series_between (map year_erupted df) (fst years) (snd years))
         (series_eq (map tectonic_setting df) setting)).

(** Lines 188-194 of [query4]. *)
Definition query4_filtered (df : DataFrame) (types : list string)
  (region : string) (known_only : bool) : DataFrame :=
  let filtered := df in
  let filtered :=
    if known_only
    then getitem_mask filtered
           (series_notna (map last_known_eruption filtered))
    else filtered in
  let filtered :=
    if negb (String.eqb region region_placeholder)
    then select_region filtered region
    else filtered in
  match types with
  | [] => filtered
  | _ :: _ =>
      getitem_mask filtered
        (series_isin (map primary_volcano_type filtered) types)
  end.

(** The masks seen one row at a time. *)
Definition region_is (R : string) (r : Row) : bool :=
  match volcanic_region r with
  | Some s => String.eqb s R
  | None => false
  end.

Definition elevation_ge (h : Z) (r : Row) : bool :=
  match elevation r with
  | Some v => (h <=? v)%Z
  | None => false
  end.

Definition year_between (lo hi : Z) (r : Row) : bool :=
  match year_erupted r with
  | Some v => ((lo <=? v) && (v <=? hi))%Z
  | None => false
  end.

(** ** Count and mean *)

(** [Series.mean()]: missing cells are skipped; [NaN] when nothing is
    left.  One pass keeps the running sum and the number of cells seen. *)
Definition mean_step (acc : Z * Z) (cell : option Z) : Z * Z :=
  match cell with
  | Some v => (fst acc + v, snd acc + 1)%Z
  | None => acc
  end.

Definition series_mean (col : list (option Z)) : option Q :=
  let acc := fold_left mean_step col (0, 0)%Z in
  if (snd acc =? 0)%Z then None
  else Some (inject_Z (fst acc) / inject_Z (snd acc))%Q.

(** [count_and_average_height] (lines 32-35). *)
Definition count_and_average_height (df : DataFrame) (region : string)
  : nat * option Q :=
  let df :=
    if negb (String.eqb region "All") then select_region df region else df in
  (List.length df, series_mean (map elevation df)).

(** The data of [query2]: the table shown and the two numbers of the
    sentence under it (lines 124-132). *)
Definition query2 (df : DataFrame) (region : string) (height : Z)
  : DataFrame * (nat * option Q) :=
  let filtered := query2_filtered df region height in
  (filtered, count_and_average_height filtered region).

(** ** Names containing "Mount" *)

(** The list comprehension of [get_named_volcanoes] (line 50) over the
    name column.  [in] needs a string on its right: a missing name is a
    float there and the test raises [TypeError]. *)
Fixpoint named_in (names : list (option string)) : result (list string) :=
  match names with
  | [] => Ok []
  | None :: _ => Raise TypeError
  | Some name :: rest =>
      if str_contains "Mount" name then
        tl <- named_in rest ;; Ok (name :: tl)
      else named_in rest
  end.

Definition get_named_volcanoes (df : DataFrame) : result (list string) :=
  named_in (map volcano_name df).

(** The data of [query1] apart from the bar chart: the rows kept and the
    names listed (lines 97 and 104). *)
Definition query1 (df : DataFrame) (region : string)
  : result (DataFrame * list string) :=
  let filtered := filterByRegion df region in
  named_volcanoes <- get_named_volcanoes filtered ;;
  Ok (filtered, named_volcanoes).

(** ** Category counts *)

(** The hash-table pass of [value_counts]: one counter per distinct
    value, created when the value is first met; missing cells are
    dropped. *)
Fixpoint count_insert (k : string) (tbl : list (string * nat))
  : list (string * nat) :=
  match tbl with
  | [] => [(k, 1%nat)]
  | (k', n) :: rest =>
      if String.eqb k k' then (k', S n) :: rest
      else (k', n) :: count_insert k rest
  end.

Definition count_step (tbl : list (string * nat)) (cell : option string)
  : list (string * nat) :=
  match cell with
  | Some k => count_insert k tbl
  | None => tbl
  end.

Definition hash_value_count (col : list (option string))
  : list (string * nat) :=
  fold_left count_step col [].

(** Reading one counter; 0 for a value never met. *)
Fixpoint count_of (k : string) (tbl : list (string * nat)) : nat :=
  match tbl with
  | [] => 0
  | (k', n) :: rest => if String.eqb k k' then n else count_of k rest
  end.

(** [value_counts] then hands the counters to [sort_values(ascending=False)].
    The program passes no sorting kind and pins no library version; what
    every version gives is the same counters in descending order, while
    the order of equal counts has changed between versions.  The sort is
    therefore a parameter here, with that contract ([descending_sort]
    below). *)
Section ValueCounts.

Variable sort_values_desc : list (string * nat) -> list (string * nat).

Definition value_counts (col : list (option string))
  : list (string * nat) :=
  sort_values_desc (hash_value_count col).

(** [Series.head(n)]. *)
Definition head {A : Type} (n : nat) (s : list A) : list A := firstn n s.

(** [filtered["primary volcano type"].value_counts().head(n)]
    (lines 196 and 200, where [n] is 10). *)
Definition topCategoryCounts (filtered : DataFrame) (n : nat)
  : list (string * nat) :=
  head n (value_counts (map primary_volcano_type filtered)).

(** The bars of [query1] (line 98). *)
Definition query1_type_counts (df : DataFrame) (region : string)
  : list (string * nat) :=
  value_counts (map primary_volcano_type (filterByRegion df region)).

(** The bars of [query4]. *)
Definition query4 (df : DataFrame) (types : list string) (region : string)
  (known_only : bool) : list (string * nat) :=
  topCategoryCounts (query4_filtered df types region known_only) 10.

End ValueCounts.

(** A sort that meets this contract and keeps equal counts in their
    incoming order; the examples use it. *)
Fixpoint insert_before_ties (x : string * nat) (l : list (string * nat))
  : list (string * nat) :=
  match l with
  | [] => [x]
  | y :: l' =>
      if (snd y <=? snd x)%nat then x :: y :: l'
      else y :: insert_before_ties x l'
  end.

Definition sort_values_stable (l : list (string * nat))
  : list (string * nat) :=
  fold_right insert_before_ties [] l.

(** The three conditional selections of [query4] seen one row at a
    time (lemma [query4_filtered_filter]). *)
Definition query4_keeps_b (types : list string) (region : string)
  (known_only : bool) (r : Row) : bool :=
  (negb known_only
   || match last_known_eruption r with
      | Some _ => true
      | None => false
      end)
  && ((String.eqb region region_placeholder || region_is region r)
      && (match types with [] => true | _ :: _ => false end
          || match primary_volcano_type r with
             | Some s => existsb (String.eqb s) types
             | None => false
             end)).

(** ** The option lists of the select boxes and the year slider *)

(** [Series.dropna()]. *)
Fixpoint dropna {A : Type} (col : list (option A)) : list A :=
  match col with
  | [] => []
  | Some v :: rest => v :: dropna rest
  | None :: rest => dropna rest
  end.

(** [Series.unique()]: the distinct values, each at the place it is first
    met. *)
Definition unique_step (seen : list string) (v : string) : list string :=
  if existsb (String.eqb v) seen then seen else seen ++ [v].

Definition unique (col : list string) : list string :=
  fold_left unique_step col [].

(** [sorted(...)] on strings: Python orders them by code point, which on
    8-bit text is [String.leb].  The values sorted here are distinct, so
    the result does not depend on how the sort treats ties. *)
Fixpoint insert_str (x : string) (l : list string) : list string :=
  match l with
  | [] => [x]
  | y :: l' => if String.leb x y then x :: y :: l' else y :: insert_str x l'
  end.

Definition sorted (l : list string) : list string :=
  fold_right insert_str [] l.

(** Lines 94, 119 and 184. *)
Definition region_options (df : DataFrame) : list string :=
  region_placeholder :: sorted (unique (dropna (map volcanic_region df))).

(** Line 149. *)
Definition setting_options (df : DataFrame) : list string :=
  setting_placeholder :: sorted (unique (dropna (map tectonic_setting df))).

(** Line 183: the types offered by the multiselect. *)
Definition type_options (df : DataFrame) : list string :=
  sorted (unique (dropna (map primary_volcano_type df))).

(** [Series.min()] of a column without missing cells. *)
Definition series_min (first : Z) (rest : list Z) : Z :=
  fold_left Z.min rest first.

(** Line 147: the lower end of the year slider. *)
Definition query3_min_year (df : DataFrame) : Z :=
  match dropna (map year_erupted df) with
  | [] => 0%Z
  | y :: ys => series_min y ys
  end.

(** Line 148: the range the slider starts with. *)
Definition query3_default_years (df : DataFrame) : Z * Z :=
  (query3_min_year df, 2025%Z).

(** The data of [query3]: the rows shown and the number in the sentence
    under them (lines 153-157). *)
Definition query3 (df : DataFrame) (years : Z * Z) (setting : string)
  : DataFrame * nat :=
  let filtered := query3_filtered df years setting in
  (filtered, List.length filtered).

(** [pat] occurs in [s]. *)
Definition is_substring (pat s : string) : Prop :=
  exists a b, s = (a ++ pat ++ b)%string.

(** ** Vocabulary of the specification

    The predicates below say in logical terms what the specification
    says in words; the theorems compare the code above with them. *)

(** [out] is made of exactly the rows of [df] that satisfy [P], each as
    often as it occurs in [df] and in the order of [df]. *)
Inductive Selects {A : Type} (P : A -> Prop) : list A -> list A -> Prop :=
| Selects_nil : Selects P [] []
| Selects_keep r df out :
    P r -> Selects P df out -> Selects P (r :: df) (r :: out)
| Selects_drop r df out :
    ~ P r -> Selects P df out -> Selects P (r :: df) out.

(** Four consecutive digits start at position [i] of [s]. *)
Definition four_digits_at (s : string) (i : nat) : Prop :=
  exists a b c d,
    substring i 4 s = String a (String b (String c (String d EmptyString)))
    /\ is_digit a = true /\ is_digit b = true
    /\ is_digit c = true /\ is_digit d = true.

(** The number a digit string denotes, by position. *)
Fixpoint decimal_value (s : string) : Z :=
  match s with
  | EmptyString => 0
  | String c rest =>
      digit_value c * 10 ^ Z.of_nat (String.length rest) + decimal_value rest
  end.

(** The derived year [y] the specification asks for an eruption text. *)
Definition derived_year_spec (text : option string) (y : option Z) : Prop :=
  (text = None -> y = None)
  /\ (forall s, text = Some s -> (forall i, ~ four_digits_at s i) -> y = None)
  /\ (forall s i, text = Some s -> four_digits_at s i ->
        (forall j, (j < i)%nat -> ~ four_digits_at s j) ->
        y = Some (decimal_value (substring i 4 s))).

(** The non-null elevations of the rows whose region is [R]. *)
Fixpoint region_elevations (df : DataFrame) (R : string) : list Z :=
  match df with
  | [] => []
  | r :: df' =>
      match volcanic_region r, elevation r with
      | Some s, Some e =>
          if string_dec s R then e :: region_elevations df' R
          else region_elevations df' R
      | _, _ => region_elevations df' R
      end
  end.

(** The number of rows whose region is [R]. *)
Fixpoint region_count (df : DataFrame) (R : string) : nat :=
  match df with
  | [] => 0
  | r :: df' =>
      match volcanic_region r with
      | Some s => if string_dec s R then S (region_count df' R)
                  else region_count df' R
      | None => region_count df' R
      end
  end.

(** The non-null elevations of all rows. *)
Fixpoint all_elevations (df : DataFrame) : list Z :=
  match df with
  | [] => []
  | r :: df' =>
      match elevation r with
      | Some e => e :: all_elevations df'
      | None => all_elevations df'
      end
  end.

(** Arithmetic mean; undefined for no value. *)
Definition arithmetic_mean (vals : list Z) : option Q :=
  match vals with
  | [] => None
  | _ :: _ =>
      Some (inject_Z (fold_right Z.add 0%Z vals)
            / inject_Z (Z.of_nat (List.length vals)))%Q
  end.

(** Counts never increase along the list. *)
Definition count_ge (p q : string * nat) : Prop := (snd q <= snd p)%nat.

(** What the program relies on from the library sort. *)
Definition descending_sort
  (sort : list (string * nat) -> list (string * nat)) : Prop :=
  (forall l, Permutation l (sort l)) /\ (forall l, Sorted count_ge (sort l)).

(** The sort leaves entries of equal count in their incoming order. *)
Definition stable_sort
  (sort : list (string * nat) -> list (string * nat)) : Prop :=
  forall l n,
    filter (fun p => Nat.eqb (snd p) n) (sort l)
    = filter (fun p => Nat.eqb (snd p) n) l.

(** Category [k1] is met in the column before category [k2] is. *)
Definition encountered_before (k1 k2 : string) (col : list (option string))
  : Prop :=
  exists pre post, col = pre ++ Some k1 :: post /\ ~ In (Some k2) pre.

(** Entries of equal count stand in the order their categories are first
    met in the column. *)
Definition ties_first_encountered (col : list (option string))
  (out : list (string * nat)) : Prop :=
  forall l1 l2 l3 k1 k2 n,
    out = l1 ++ (k1, n) :: l2 ++ (k2, n) :: l3 ->
    encountered_before k1 k2 col.

(** The number of cells of a column holding category [k]. *)
Fixpoint occurrences (k : string) (col : list (option string)) : nat :=
  match col with
  | [] => 0
  | Some s :: rest =>
      if string_dec s k then S (occurrences k rest) else occurrences k rest
  | None :: rest => occurrences k rest
  end.

Definition sum_counts (out : list (string * nat)) : nat :=
  fold_right (fun p acc => (snd p + acc)%nat) 0%nat out.

(** [opts] lists the values of a column: each non-null value once, in
    increasing order of text. *)
Definition lists_values (col : list (option string)) (opts : list string)
  : Prop :=
  Sorted (fun a b => String.leb a b = true) opts
  /\ NoDup opts
  /\ forall v, In v opts <-> In (Some v) col.

(** Sample rows used in the examples. *)
Definition sample_row (name region type : option string) (elev : option Z)
  (year : option Z) : Row :=
  {| volcano_name := name; country := None; volcanic_region := region;
     primary_volcano_type := type; tectonic_setting := None;
     elevation := elev; last_known_eruption := None; year_erupted := year |}.

(** The three-row table of the specification's example. *)
Definition africa_low : Row :=
  sample_row None (Some "Africa") None (Some 100%Z) None.
Definition africa_high : Row :=
  sample_row None (Some "Africa") None (Some 3000%Z) None.
Definition asia : Row :=
  sample_row None (Some "Asia") None (Some 5000%Z) None.
Definition sample_table : DataFrame := [africa_low; africa_high; asia].

(** A row whose name cell is empty. *)
Definition unnamed_row : Row :=
  sample_row None (Some "Africa") (Some "Shield") (Some 1200%Z) None.

(** Five rows; two of the categories are met once each. *)
Definition tied_types : DataFrame :=
  [ sample_row None None (Some "Stratovolcano") None None;
    sample_row None None (Some "Shield") None None;
    sample_row None None None None None;
    sample_row None None (Some "Caldera") None None;
    sample_row None None (Some "Shield") None None ].

Definition sample_raw (text : option string) : RawRow :=
  {| raw_volcano_name := Some "Pinatubo"; raw_country := Some "Philippines";
     raw_volcanic_region := Some "Philippines and SE Asia";
     raw_primary_volcano_type := Some "Stratovolcano";
     raw_tectonic_setting := None; raw_elevation := Some 1486%Z;
     raw_last_known_eruption := text |}.

(** * Properties *)

(** ** Text *)

Lemma match_d4_Some (s m : string) :
  match_d4 s = Some m -> four_digits_at s 0 /\ m = substring 0 4 s.
Proof.
  destruct s as [|a [|b [|c [|d t]]]]; simpl; try discriminate.
  destruct (is_digit a) eqn:Ha, (is_digit b) eqn:Hb,
           (is_digit c) eqn:Hc, (is_digit d) eqn:Hd;
    simpl; try discriminate.
  intros E. injection E as <-.
  assert (Hsub : substring 0 4 (String a (String b (String c (String d t))))
                 = String a (String b (String c (String d EmptyString)))).
  { simpl. now destruct t. }
  split; [|now destruct t].
  exists a, b, c, d. now rewrite Hsub.
Qed.

Lemma match_d4_None (s : string) :
  match_d4 s = None -> ~ four_digits_at s 0.
Proof.
  intros Hm (a & b & c & d & Hsub & Ha & Hb & Hc & Hd).
  destruct s as [|a' [|b' [|c' [|d' t]]]]; simpl in Hsub; try discriminate.
  injection Hsub as -> -> -> -> _.
  simpl in Hm. rewrite Ha, Hb, Hc, Hd in Hm. discriminate.
Qed.

Lemma four_digits_at_S (c : ascii) (s : string) (i : nat) :
  four_digits_at (String c s) (S i) <-> four_digits_at s i.
Proof. unfold four_digits_at. simpl. tauto. Qed.

Lemma re_search_d4_None (s : string) :
  re_search_d4 s = None -> forall i, ~ four_digits_at s i.
Proof.
  induction s as [|c s IH]; cbn [re_search_d4].
  - intros _ i (a & b & c & d & Hsub & _).
    destruct i; simpl in Hsub; discriminate.
  - destruct (match_d4 (String c s)) eqn:Hm; [discriminate|].
    intros Hs [|i].
    + now apply match_d4_None.
    + rewrite four_digits_at_S. now apply IH.
Qed.

Lemma re_search_d4_Some (s m : string) :
  re_search_d4 s = Some m ->
  exists i, four_digits_at s i
            /\ (forall j, (j < i)%nat -> ~ four_digits_at s j)
            /\ m = substring i 4 s.
Proof.
  induction s as [|c s IH]; cbn [re_search_d4]; [discriminate|].
  destruct (match_d4 (String c s)) eqn:Hm.
  - intros E. injection E as <-.
    destruct (match_d4_Some _ _ Hm) as [H0 Hsub].
    exists 0%nat. repeat split; [exact H0 | lia | exact Hsub].
  - intros Hs. destruct (IH Hs) as (i & Hi & Hmin & Hsub).
    exists (S i). repeat split.
    + now apply four_digits_at_S.
    + intros [|j] Hj.
      * now apply match_d4_None.
      * rewrite four_digits_at_S. apply Hmin. lia.
    + exact Hsub.
Qed.

Lemma digit_value_range (c : ascii) :
  is_digit c = true -> (0 <= digit_value c <= 9)%Z.
Proof.
  unfold is_digit, digit_value. rewrite andb_true_iff.
  rewrite !Nat.leb_le. lia.
Qed.

Lemma parse_digits_decimal (s : string) :
  forall acc,
    (forall i, (i < String.length s)%nat ->
               exists c, get i s = Some c /\ is_digit c = true) ->
    parse_digits acc s
    = Some (acc * 10 ^ Z.of_nat (String.length s) + decimal_value s)%Z.
Proof.
  induction s as [|c s IH]; intros acc Hd.
  - simpl. f_equal. lia.
  - destruct (Hd 0%nat) as (c0 & Hc0 & Hdig); [simpl; lia|].
    simpl in Hc0. injection Hc0 as <-.
    cbn [parse_digits decimal_value String.length]. rewrite Hdig.
    rewrite IH.
    + f_equal. rewrite Nat2Z.inj_succ, Z.pow_succ_r by lia. ring.
    + intros i Hi. apply (Hd (S i)). simpl. lia.
Qed.

(** Whatever the search returns is read back as a number. *)
Lemma re_search_d4_parses (s m : string) :
  re_search_d4 s = Some m -> parse_decimal m = Some (decimal_value m).
Proof.
  intros Hs. destruct (re_search_d4_Some _ _ Hs) as (i & Hi & _ & ->).
  destruct Hi as (a & b & c & d & -> & Ha & Hb & Hc & Hd).
  unfold parse_decimal. rewrite parse_digits_decimal.
  - f_equal.
  - intros [|[|[|[|j]]]] Hj; simpl in *; try lia; eauto.
Qed.

(** ** Loading *)

Lemma to_numeric_coerce (col : list (option string)) :
  to_numeric errors_coerce col
  = Ok (map (fun cell => match cell with
                         | None => None
                         | Some s => parse_decimal s
                         end) col).
Proof.
  induction col as [|cell col IH]; [reflexivity|].
  simpl. rewrite IH.
  destruct cell as [s|]; simpl; [|reflexivity].
  now destruct (parse_decimal s).
Qed.

Lemma assign_columns_map (f : RawRow -> option string)
  (g : RawRow -> option Z) (raw : list RawRow) :
  assign_columns raw (map f raw) (map g raw)
  = map (fun r => assign_row r (f r, g r)) raw.
Proof. induction raw as [|r raw IH]; simpl; [|rewrite IH]; reflexivity. Qed.

Lemma read_dtype_text (col : list (option string)) (s : string) :
  In (Some s) col -> read_dtype col = dtype_object.
Proof.
  intros Hin. unfold read_dtype. destruct col as [|c col]; [reflexivity|].
  assert (E : existsb notna_cell (c :: col) = true).
  { apply existsb_exists. now exists (Some s). }
  now rewrite E.
Qed.

Lemma read_dtype_float64 (col : list (option string)) :
  read_dtype col = dtype_float64
  <-> col <> [] /\ forall cell, In cell col -> cell = None.
Proof.
  unfold read_dtype. destruct col as [|c col].
  - split; [discriminate|]. intros [H _]. now elim H.
  - destruct (existsb notna_cell (c :: col)) eqn:E.
    + split; [discriminate|]. intros [_ Hnone].
      apply existsb_exists in E. destruct E as (cell & Hin & Hcell).
      rewrite (Hnone cell Hin) in Hcell. discriminate.
    + split; [intros _|reflexivity]. split; [discriminate|].
      intros cell Hin. destruct cell as [t|]; [|reflexivity].
      assert (E' : existsb notna_cell (c :: col) = true); [|congruence].
      apply existsb_exists. now exists (Some t).
Qed.

(** [load_data] on a column read as text, seen one row at a time. *)
Lemma load_data_rows (raw : list RawRow) :
  read_dtype (map raw_last_known_eruption raw) = dtype_object ->
  load_data raw = Ok (map normalize_row raw).
Proof.
  intros Hd. unfold load_data, series_replace. cbv zeta. rewrite Hd.
  cbn [str_extract_d4 bind].
  rewrite to_numeric_coerce, !map_map. cbn [bind].
  rewrite (assign_columns_map
             (fun r => replace_na eruption_sentinels
                         (raw_last_known_eruption r))).
  f_equal. apply map_ext. intros r.
  unfold normalize_row, extract_year. cbv zeta.
  destruct (replace_na eruption_sentinels (raw_last_known_eruption r))
    as [s|]; [|reflexivity].
  now destruct (re_search_d4 s).
Qed.

(** [load_data] on a column read as [float64]. *)
Lemma load_data_float64 (raw : list RawRow) :
  read_dtype (map raw_last_known_eruption raw) = dtype_float64 ->
  load_data raw = Raise AttributeError.
Proof.
  intros Hd. unfold load_data. cbv zeta. now rewrite Hd.
Qed.

Lemma load_data_Ok_rows (raw : list RawRow) (df : DataFrame) :
  load_data raw = Ok df -> df = map normalize_row raw.
Proof.
  intros Hload.
  destruct (read_dtype (map raw_last_known_eruption raw)) eqn:Hd.
  - rewrite (load_data_rows raw Hd) in Hload. congruence.
  - rewrite (load_data_float64 raw Hd) in Hload. discriminate.
Qed.

Lemma load_data_text_rows (raw : list RawRow) (r : RawRow) (s : string) :
  In r raw -> raw_last_known_eruption r = Some s ->
  load_data raw = Ok (map normalize_row raw).
Proof.
  intros Hin Hs. apply load_data_rows. apply (read_dtype_text _ s).
  rewrite <- Hs. now apply in_map.
Qed.

Lemma replace_na_keeps_digits (s : string) (i : nat) :
  four_digits_at s i -> replace_na eruption_sentinels (Some s) = Some s.
Proof.
  intros (a & b & c & d & Hsub & Ha & _).
  unfold replace_na.
  destruct (existsb (String.eqb s) eruption_sentinels) eqn:E;
    [|reflexivity].
  exfalso. apply existsb_exists in E. destruct E as (t & Hin & Heq).
  apply String.eqb_eq in Heq. subst t.
  simpl in Hin.
  destruct Hin as [<-|[<-|[<-|[<-|[]]]]];
    destruct i as [|[|[|[|[|[|[|[|i]]]]]]]]; simpl in Hsub;
    try discriminate Hsub;
    injection Hsub as <- _ _ _; vm_compute in Ha; discriminate Ha.
Qed.

Lemma replace_na_Some (l : list string) (s t : string) :
  replace_na l (Some s) = Some t -> t = s.
Proof.
  unfold replace_na. destruct (existsb (String.eqb s) l); congruence.
Qed.

Lemma normalize_row_year (r : RawRow) :
  derived_year_spec (raw_last_known_eruption r)
                    (year_erupted (normalize_row r)).
Proof.
  change (year_erupted (normalize_row r))
    with (extract_year (replace_na eruption_sentinels
                          (raw_last_known_eruption r))).
  destruct (raw_last_known_eruption r) as [s|].
  2:{ split; [intros _; reflexivity | split; intros; discriminate]. }
  split; [discriminate|]. split.
  - intros s' E Hno. injection E as <-.
    destruct (replace_na eruption_sentinels (Some s)) as [t|] eqn:Hr;
      [|reflexivity].
    apply replace_na_Some in Hr. subst t. unfold extract_year.
    destruct (re_search_d4 s) as [m|] eqn:Hs; [|reflexivity].
    destruct (re_search_d4_Some _ _ Hs) as (i & Hi & _). now elim (Hno i).
  - intros s' i E Hi Hmin. injection E as <-.
    rewrite (replace_na_keeps_digits s i Hi). unfold extract_year.
    destruct (re_search_d4 s) as [m|] eqn:Hs.
    + rewrite (re_search_d4_parses _ _ Hs).
      destruct (re_search_d4_Some _ _ Hs) as (i0 & Hi0 & Hmin0 & ->).
      assert (i0 = i) as ->; [|reflexivity].
      destruct (Nat.lt_trichotomy i0 i) as [Hlt|[Heq|Hgt]];
        [now elim (Hmin i0)|exact Heq|now elim (Hmin0 i)].
    + now elim (re_search_d4_None _ Hs i).
Qed.

(** X24.  On a table with rows, [load_data] returns, with one row per raw
    row, when some eruption cell holds text (a sentinel counts), and
    raises [AttributeError] when none does. *)
Theorem load_data_returns_or_raises (raw : list RawRow) :
  ((exists r s, In r raw /\ raw_last_known_eruption r = Some s) ->
   exists df, load_data raw = Ok df /\ List.length df = List.length raw)
  /\ (raw <> [] ->
      (forall r, In r raw -> raw_last_known_eruption r = None) ->
      load_data raw = Raise AttributeError).
Proof.
  split.
  - intros (r & s & Hin & Hs). exists (map normalize_row raw).
    split; [exact (load_data_text_rows raw r s Hin Hs)|apply length_map].
  - intros Hne Hnone. apply load_data_float64.
    apply read_dtype_float64. split.
    + destruct raw; [now elim Hne|discriminate].
    + intros cell Hin. apply in_map_iff in Hin.
      destruct Hin as (r & <- & Hin). now apply Hnone.
Qed.

(** C1, at a table the program fails on.  The sheet has rows and its
    eruption column is empty throughout, so the column is read as
    [float64]; the [.str] accessor of line 44 then raises
    [AttributeError], where the claim has the derivation give a null year
    for each row and never raise. *)
Theorem load_data_no_text_raises :
  load_data [sample_raw None] = Raise AttributeError
  /\ load_data [sample_raw None; sample_raw None] = Raise AttributeError.
Proof. split; reflexivity. Qed.

(** X22.  When [load_data] returns, the table has one row per raw row,
    and the year it derives for a row is: null when the eruption text is
    null; null when the text has no four consecutive digits; and
    otherwise the decimal value of the leftmost run of four consecutive
    digits in the text. *)
Theorem load_data_derived_year (raw : list RawRow) (df : DataFrame) :
  load_data raw = Ok df ->
  List.length df = List.length raw
  /\ forall i r, nth_error raw i = Some r ->
       exists row, nth_error df i = Some row
                   /\ derived_year_spec (raw_last_known_eruption r)
                                        (year_erupted row).
Proof.
  intros Hload. apply load_data_Ok_rows in Hload. subst df.
  split; [apply length_map|].
  intros i r Hr. exists (normalize_row r). split.
  - rewrite nth_error_map, Hr. reflexivity.
  - apply normalize_row_year.
Qed.

Lemma load_data_derived_year_witness :
  exists df row,
    load_data [sample_raw (Some "1991 (Pinatubo)"); sample_raw None] = Ok df
    /\ nth_error df 0 = Some row
    /\ year_erupted row = Some 1991%Z
    /\ List.length df = 2%nat.
Proof.
  eexists. eexists. split; [reflexivity|]. split; [reflexivity|].
  destruct (load_data_derived_year
              [sample_raw (Some "1991 (Pinatubo)"); sample_raw None]
              _ eq_refl) as (Hlen & Hrows).
  split; [|exact Hlen].
  destruct (Hrows 0%nat (sample_raw (Some "1991 (Pinatubo)")) eq_refl)
    as (row & Hnth & _ & _ & Hfirst).
  injection Hnth as <-.
  apply (Hfirst "1991 (Pinatubo)" 0%nat eq_refl).
  - exists "1"%char, "9"%char, "9"%char, "1"%char. repeat split.
  - intros j Hj. lia.
Defined.

(** C4.  When the eruption text of a raw row is one of ["Unknown"],
    ["?"], ["No data"] or the empty text, [load_data] returns a table,
    and the row it holds at that place has a null eruption date and a
    null derived year. *)
Theorem load_data_sentinel_null (raw : list RawRow) (i : nat) (r : RawRow)
  (s : string) :
  nth_error raw i = Some r ->
  raw_last_known_eruption r = Some s ->
  s = "Unknown" \/ s = "?" \/ s = "No data" \/ s = "" ->
  exists df row,
    load_data raw = Ok df
    /\ nth_error df i = Some row
    /\ last_known_eruption row = None
    /\ year_erupted row = None.
Proof.
  intros Hr Hs Hsent.
  exists (map normalize_row raw), (normalize_row r). split.
  { apply (load_data_text_rows raw r s); [|exact Hs].
    now apply nth_error_In with (n := i). }
  split.
  - rewrite nth_error_map, Hr. reflexivity.
  - unfold normalize_row, extract_year. simpl. rewrite Hs.
    destruct Hsent as [-> | [-> | [-> | ->]]]; split; reflexivity.
Qed.

Lemma load_data_sentinel_null_witness :
  exists df row,
    load_data [sample_raw (Some "1991 (Pinatubo)"); sample_raw (Some "No data")]
    = Ok df
    /\ nth_error df 1 = Some row
    /\ last_known_eruption row = None
    /\ year_erupted row = None.
Proof.
  apply (load_data_sentinel_null
           [sample_raw (Some "1991 (Pinatubo)"); sample_raw (Some "No data")]
           1%nat (sample_raw (Some "No data")) "No data" eq_refl eq_refl).
  right. right. now left.
Defined.

(** ** Masks *)

Lemma getitem_mask_map {A : Type} (p : A -> bool) (df : list A) :
  getitem_mask df (map p df) = filter p df.
Proof.
  induction df as [|r df IH]; simpl; [reflexivity|].
  rewrite IH. reflexivity.
Qed.

Lemma mask_and_map {A : Type} (p q : A -> bool) (df : list A) :
  mask_and (map p df) (map q df) = map (fun r => p r && q r) df.
Proof.
  unfold mask_and.
  induction df as [|r df IH]; simpl; [reflexivity|].
  now rewrite IH.
Qed.

Lemma select_region_filter (df : DataFrame) (R : string) :
  select_region df R = filter (region_is R) df.
Proof.
  unfold select_region, series_eq. rewrite map_map.
  apply getitem_mask_map.
Qed.

Lemma filterByMinElevation_filter (df : DataFrame) (h : Z) :
  filterByMinElevation df h = filter (elevation_ge h) df.
Proof.
  unfold filterByMinElevation, series_ge. rewrite map_map.
  apply getitem_mask_map.
Qed.

Lemma filterByYearRange_filter (df : DataFrame) (lo hi : Z) :
  filterByYearRange df lo hi = filter (year_between lo hi) df.
Proof.
  unfold filterByYearRange, series_between. rewrite map_map.
  apply getitem_mask_map.
Qed.

Lemma query2_filtered_filter (df : DataFrame) (R : string) (h : Z) :
  query2_filtered df R h
  = if String.eqb R region_placeholder then filter (elevation_ge h) df
    else filter (fun r => region_is R r && elevation_ge h r) df.
Proof.
  unfold query2_filtered, series_eq, series_ge. rewrite !map_map.
  destruct (String.eqb R region_placeholder).
  - apply getitem_mask_map.
  - rewrite (mask_and_map (region_is R) (elevation_ge h)).
    apply getitem_mask_map.
Qed.

Lemma region_is_true (R : string) (r : Row) :
  region_is R r = true <-> volcanic_region r = Some R.
Proof.
  unfold region_is. destruct (volcanic_region r) as [s|].
  - rewrite String.eqb_eq. split; congruence.
  - split; discriminate.
Qed.

Lemma elevation_ge_true (h : Z) (r : Row) :
  elevation_ge h r = true <-> exists e, elevation r = Some e /\ (h <= e)%Z.
Proof.
  unfold elevation_ge. destruct (elevation r) as [e|].
  - rewrite Z.leb_le. split.
    + intros H. now exists e.
    + intros (e' & E & H). now injection E as <-.
  - split; [discriminate|]. now intros (e & E & _).
Qed.

Lemma year_between_true (lo hi : Z) (r : Row) :
  year_between lo hi r = true
  <-> exists y, year_erupted r = Some y /\ (lo <= y <= hi)%Z.
Proof.
  unfold year_between. destruct (year_erupted r) as [y|].
  - rewrite andb_true_iff, !Z.leb_le. split.
    + intros H. now exists y.
    + intros (y' & E & H). now injection E as <-.
  - split; [discriminate|]. now intros (y & E & _).
Qed.

(** ** Selections *)

Lemma filter_Selects {A : Type} (p : A -> bool) (P : A -> Prop) :
  (forall r, p r = true <-> P r) ->
  forall df, Selects P df (filter p df).
Proof.
  intros Hp df. induction df as [|r df IH]; simpl; [constructor|].
  destruct (p r) eqn:E.
  - apply Selects_keep; [now apply Hp|exact IH].
  - apply Selects_drop; [|exact IH].
    intros HP. apply Hp in HP. congruence.
Qed.

Lemma Selects_functional {A : Type} (P : A -> Prop) (df out1 out2 : list A) :
  Selects P df out1 -> Selects P df out2 -> out1 = out2.
Proof.
  intros H1. revert out2.
  induction H1 as [|r df out HP _ IH|r df out HP _ IH];
    intros out2 H2; inversion H2; subst;
    try reflexivity; try contradiction.
  - f_equal. now apply IH.
  - now apply IH.
Qed.

Lemma Selects_In {A : Type} (P : A -> Prop) (df out : list A) :
  Selects P df out -> forall r, In r out <-> In r df /\ P r.
Proof.
  induction 1 as [|r0 df out HP _ IH|r0 df out HP _ IH]; intros r; simpl.
  - tauto.
  - rewrite IH. split.
    + intros [<-|[Hin Hr]]; auto.
    + intros [[<-|Hin] Hr]; auto.
  - rewrite IH. split.
    + intros [Hin Hr]; auto.
    + intros [[<-|Hin] Hr]; [contradiction|auto].
Qed.

Lemma filter_all {A : Type} (p : A -> bool) (l : list A) :
  (forall x, In x l -> p x = true) -> filter p l = l.
Proof.
  induction l as [|x l IH]; simpl; intros H; [reflexivity|].
  rewrite (H x (or_introl eq_refl)). f_equal. apply IH. auto.
Qed.

Lemma filter_none {A : Type} (p : A -> bool) (l : list A) :
  (forall x, In x l -> p x = false) -> filter p l = [].
Proof.
  induction l as [|x l IH]; simpl; intros H; [reflexivity|].
  rewrite (H x (or_introl eq_refl)). apply IH. auto.
Qed.

Lemma filter_filter {A : Type} (p q : A -> bool) (l : list A) :
  filter p (filter q l) = filter (fun x => q x && p x) l.
Proof.
  induction l as [|x l IH]; simpl; [reflexivity|].
  destruct (q x); simpl; [destruct (p x)|]; now rewrite IH.
Qed.

(** ** Region filter *)

(** C5.  With the no-selection entry of the region box [filterByRegion]
    returns the table itself, so the same rows in the same order; with
    any other region value it returns exactly the rows whose region field
    is that very string, in table order.  [query4] with no type chosen
    and the eruption box unticked selects the same rows. *)
Theorem filterByRegion_spec (df : DataFrame) :
  filterByRegion df region_placeholder = df
  /\ (forall R, R <> region_placeholder ->
       Selects (fun r => volcanic_region r = Some R) df (filterByRegion df R))
  /\ (forall R, query4_filtered df [] R false = filterByRegion df R).
Proof.
  split; [reflexivity|]. split.
  2:{ intros R. unfold query4_filtered, filterByRegion.
      now destruct (String.eqb R region_placeholder). }
  intros R HR. unfold filterByRegion.
  destruct (String.eqb_spec R region_placeholder) as [E|_]; [contradiction|].
  rewrite select_region_filter.
  apply filter_Selects. intros r. apply region_is_true.
Qed.

Lemma filterByRegion_spec_witness :
  Selects (fun r => volcanic_region r = Some "Africa")
    sample_table (filterByRegion sample_table "Africa")
  /\ filterByRegion sample_table "Africa" = [africa_low; africa_high].
Proof.
  split; [|reflexivity].
  apply (proj1 (proj2 (filterByRegion_spec sample_table))).
  discriminate.
Defined.

(** The comparison is on the exact text: a region spelt in lower case is
    another region. *)
Example filterByRegion_case_sensitive :
  filterByRegion sample_table "africa" = [].
Proof. reflexivity. Qed.

(** ** Elevation filter *)

Lemma filterByMinElevation_Selects (df : DataFrame) (t : Z) :
  Selects (fun r => exists e, elevation r = Some e /\ (t <= e)%Z)
    df (filterByMinElevation df t).
Proof.
  rewrite filterByMinElevation_filter.
  apply filter_Selects. intros r. apply elevation_ge_true.
Qed.

(** C8.  Filtering by a minimum elevation [t] and then again by a
    threshold [t'] that is the same or lower changes nothing; and no row
    with a null elevation passes the filter (the rows kept are exactly
    those with an elevation of at least [t]). *)
Theorem filterByMinElevation_idempotent (df : DataFrame) (t t' : Z) :
  (t' <= t)%Z ->
  filterByMinElevation (filterByMinElevation df t) t'
  = filterByMinElevation df t
  /\ Selects (fun r => exists e, elevation r = Some e /\ (t <= e)%Z)
       df (filterByMinElevation df t)
  /\ forall r, In r (filterByMinElevation df t) -> elevation r <> None.
Proof.
  intros Hle. split; [|split].
  - rewrite (filterByMinElevation_filter (filterByMinElevation df t)).
    apply filter_all. intros r Hin.
    apply (Selects_In _ _ _ (filterByMinElevation_Selects df t)) in Hin.
    destruct Hin as (_ & e & He & Hte).
    apply elevation_ge_true. exists e. split; [exact He|lia].
  - apply filterByMinElevation_Selects.
  - intros r Hin.
    apply (Selects_In _ _ _ (filterByMinElevation_Selects df t)) in Hin.
    destruct Hin as (_ & e & He & _). congruence.
Qed.

Lemma filterByMinElevation_idempotent_witness :
  filterByMinElevation (filterByMinElevation sample_table 2000) 1500
  = [africa_high; asia].
Proof.
  rewrite (proj1 (filterByMinElevation_idempotent sample_table 2000 1500
                    ltac:(lia))).
  reflexivity.
Defined.

(** C9.  Filtering by region and then by minimum elevation gives the same
    rows as filtering by minimum elevation and then by region, for every
    region entry (the no-selection entry included) and every threshold;
    both are the rows [query2] shows. *)
Theorem filter_region_elevation_commute (df : DataFrame) (R : string)
  (h : Z) :
  filterByMinElevation (filterByRegion df R) h
  = filterByRegion (filterByMinElevation df h) R
  /\ filterByMinElevation (filterByRegion df R) h = query2_filtered df R h.
Proof.
  unfold filterByRegion. rewrite query2_filtered_filter.
  destruct (String.eqb R region_placeholder).
  - split; [reflexivity|apply filterByMinElevation_filter].
  - rewrite !select_region_filter, !filterByMinElevation_filter,
      !filter_filter.
    split; [|reflexivity].
    apply filter_ext. intros r. apply andb_comm.
Qed.

(** ** Year filter *)

(** C10.  [filterByYearRange] keeps exactly the rows that have a derived
    year [y] with [min_year <= y <= max_year], both ends included, in
    table order; a row whose year is null is never kept.  It is what
    [query3] shows when no tectonic setting is chosen. *)
Theorem filterByYearRange_spec (df : DataFrame) (min_year max_year : Z) :
  Selects (fun r => exists y, year_erupted r = Some y
                              /\ (min_year <= y <= max_year)%Z)
    df (filterByYearRange df min_year max_year)
  /\ (forall r, In r (filterByYearRange df min_year max_year) <->
                In r df /\ exists y, year_erupted r = Some y
                                     /\ (min_year <= y <= max_year)%Z)
  /\ query3_filtered df (min_year, max_year) setting_placeholder
     = filterByYearRange df min_year max_year.
Proof.
  assert (HS : Selects (fun r => exists y, year_erupted r = Some y
                                  /\ (min_year <= y <= max_year)%Z)
                 df (filterByYearRange df min_year max_year)).
  { rewrite filterByYearRange_filter.
    apply filter_Selects. intros r. apply year_between_true. }
  split; [exact HS|]. split; [|reflexivity].
  apply (Selects_In _ _ _ HS).
Qed.

(** ** Count and mean *)

Lemma fold_mean_step (col : list (option Z)) :
  forall s n vals,
    vals = flat_map (fun c => match c with Some v => [v] | None => [] end) col ->
    fold_left mean_step col (s, n)
    = ((s + fold_right Z.add 0 vals)%Z,
       (n + Z.of_nat (List.length vals))%Z).
Proof.
  induction col as [|c col IH]; intros s n vals ->.
  - simpl. f_equal; lia.
  - destruct c as [v|]; cbn [fold_left mean_step flat_map fst snd app].
    + rewrite (IH _ _ _ eq_refl). cbn [fold_right List.length].
      f_equal; lia.
    + apply IH. reflexivity.
Qed.

Lemma all_elevations_flat_map (df : DataFrame) :
  all_elevations df
  = flat_map (fun c => match c with Some v => [v] | None => [] end)
      (map elevation df).
Proof.
  induction df as [|r df IH]; simpl; [reflexivity|].
  rewrite IH. now destruct (elevation r).
Qed.

(** [Series.mean] is the arithmetic mean of the non-null cells. *)
Lemma series_mean_elevation (df : DataFrame) :
  series_mean (map elevation df) = arithmetic_mean (all_elevations df).
Proof.
  unfold series_mean.
  rewrite (fold_mean_step _ 0%Z 0%Z _ (all_elevations_flat_map df)).
  cbn [fst snd]. rewrite !Z.add_0_l.
  destruct (all_elevations df) as [|v vals]; [reflexivity|].
  cbn [arithmetic_mean List.length].
  destruct (Z.eqb_spec (Z.of_nat (S (List.length vals))) 0); [lia|].
  reflexivity.
Qed.

Lemma region_count_filter (df : DataFrame) (R : string) :
  region_count df R = List.length (filter (region_is R) df).
Proof.
  induction df as [|r df IH]; simpl; [reflexivity|].
  unfold region_is at 1. destruct (volcanic_region r) as [s|]; [|exact IH].
  destruct (string_dec s R) as [->|Hne].
  - rewrite String.eqb_refl. simpl. now rewrite IH.
  - destruct (String.eqb_spec s R); [contradiction|exact IH].
Qed.

Lemma region_elevations_filter (df : DataFrame) (R : string) :
  region_elevations df R = all_elevations (filter (region_is R) df).
Proof.
  induction df as [|r df IH]; simpl; [reflexivity|].
  unfold region_is at 1. destruct (volcanic_region r) as [s|]; [|exact IH].
  destruct (string_dec s R) as [->|Hne].
  - rewrite String.eqb_refl. simpl.
    destruct (elevation r); [now rewrite IH|exact IH].
  - destruct (String.eqb_spec s R); [contradiction|].
    now destruct (elevation r).
Qed.

Lemma filter_region_idempotent (df : DataFrame) (R : string) :
  filter (region_is R) (filter (region_is R) df) = filter (region_is R) df.
Proof.
  apply filter_all. intros r Hin. now apply filter_In in Hin.
Qed.

(** What [count_and_average_height] returns for a region other than
    ["All"], and for ["All"]. *)
Lemma count_and_average_height_region (df : DataFrame) (R : string) :
  R <> "All" ->
  count_and_average_height df R
  = (region_count df R, arithmetic_mean (region_elevations df R)).
Proof.
  intros HR. unfold count_and_average_height.
  destruct (String.eqb_spec R "All") as [E|_]; [contradiction|].
  cbn [negb]. rewrite select_region_filter, series_mean_elevation.
  now rewrite region_count_filter, region_elevations_filter.
Qed.

Lemma count_and_average_height_All (df : DataFrame) :
  count_and_average_height df "All"
  = (List.length df, arithmetic_mean (all_elevations df)).
Proof.
  unfold count_and_average_height. cbn [String.eqb Ascii.eqb negb].
  now rewrite series_mean_elevation.
Qed.

(** C3.  [count_and_average_height] applied to the table filtered by
    region [R] returns the number of rows whose region is [R] and the
    arithmetic mean of the non-null elevations of those rows (undefined
    when there is none).  This holds for every [R] when the function is
    given [R] as well, the way [query2] calls it, and for every [R] other
    than the no-selection entry when its region argument is left at its
    default. *)
Theorem count_and_average_height_filterByRegion (df : DataFrame)
  (R : string) :
  count_and_average_height (filterByRegion df R) R
  = (region_count df R, arithmetic_mean (region_elevations df R))
  /\ (R <> region_placeholder ->
      count_and_average_height (filterByRegion df R) "All"
      = (region_count df R, arithmetic_mean (region_elevations df R)))
  /\ (region_elevations df R = [] ->
      snd (count_and_average_height (filterByRegion df R) R) = None).
Proof.
  assert (Hdefault : R <> region_placeholder ->
            count_and_average_height (filterByRegion df R) "All"
            = (region_count df R, arithmetic_mean (region_elevations df R))).
  { intros HR. unfold filterByRegion.
    destruct (String.eqb_spec R region_placeholder) as [E|_];
      [contradiction|].
    rewrite count_and_average_height_All, select_region_filter.
    now rewrite region_count_filter, region_elevations_filter. }
  assert (Hcall : count_and_average_height (filterByRegion df R) R
            = (region_count df R, arithmetic_mean (region_elevations df R))).
  { destruct (string_dec R "All") as [->|HAll].
    - apply Hdefault. discriminate.
    - rewrite (count_and_average_height_region _ _ HAll).
      unfold filterByRegion.
      destruct (String.eqb R region_placeholder); [reflexivity|].
      rewrite select_region_filter.
      rewrite !region_count_filter, !region_elevations_filter.
      now rewrite filter_region_idempotent. }
  split; [exact Hcall|]. split; [exact Hdefault|].
  intros Hnone. rewrite Hcall, Hnone. reflexivity.
Qed.

Lemma count_and_average_height_filterByRegion_witness :
  count_and_average_height (filterByRegion sample_table "Africa") "All"
  = (2%nat, Some (inject_Z 3100 / inject_Z 2)%Q).
Proof.
  rewrite (proj1 (proj2 (count_and_average_height_filterByRegion
                           sample_table "Africa"))).
  - reflexivity.
  - discriminate.
Defined.

(** C6.  [count_and_average_height] leaves the table unfiltered only for
    the region argument ["All"]; for every other argument it keeps the
    rows whose region field is that string.  [query2] hands it the entry
    of the region box, so with no region selected it is given the
    placeholder text, and then, when no row has that text as its region,
    it returns count 0 and an undefined mean. *)
Theorem count_and_average_height_sentinel (df : DataFrame) :
  count_and_average_height df "All"
  = (List.length df, arithmetic_mean (all_elevations df))
  /\ (forall region, region <> "All" ->
        exists kept,
          Selects (fun r => volcanic_region r = Some region) df kept
          /\ count_and_average_height df region
             = (List.length kept, arithmetic_mean (all_elevations kept)))
  /\ (forall height,
        snd (query2 df region_placeholder height)
        = count_and_average_height (filterByMinElevation df height)
            region_placeholder)
  /\ ((forall r, In r df -> volcanic_region r <> Some region_placeholder) ->
        count_and_average_height df region_placeholder = (0%nat, None)).
Proof.
  split; [apply count_and_average_height_All|]. split; [|split].
  - intros region HR. exists (filter (region_is region) df). split.
    + apply filter_Selects. intros r. apply region_is_true.
    + rewrite (count_and_average_height_region _ _ HR).
      now rewrite region_count_filter, region_elevations_filter.
  - intros height. reflexivity.
  - intros Hno. rewrite count_and_average_height_region by discriminate.
    rewrite region_count_filter, region_elevations_filter.
    rewrite filter_none; [reflexivity|].
    intros r Hin. destruct (region_is region_placeholder r) eqn:E;
      [|reflexivity].
    apply region_is_true in E. now elim (Hno r Hin).
Qed.

Lemma count_and_average_height_sentinel_witness :
  query2 sample_table region_placeholder 2000
  = ([africa_high; asia], (0%nat, None)).
Proof.
  unfold query2. cbv zeta.
  rewrite (proj2 (proj2 (proj2 (count_and_average_height_sentinel
             (query2_filtered sample_table region_placeholder 2000))))).
  - reflexivity.
  - intros r Hin. cbv in Hin.
    destruct Hin as [<-|[<-|[]]]; discriminate.
Defined.

(** The whole of [query2] on the example of the specification: region
    ["Africa"], at least 2000 m. *)
Example query2_africa_2000 :
  query2 sample_table "Africa" 2000
  = ([africa_high], (1%nat, Some (inject_Z 3000 / inject_Z 1)%Q)).
Proof. reflexivity. Qed.

(** ** Names *)

Lemma named_in_null (names : list (option string)) :
  In None names -> named_in names = Raise TypeError.
Proof.
  induction names as [|[name|] names IH]; simpl.
  - intros [].
  - intros [E|Hin]; [discriminate|].
    rewrite (IH Hin). now destruct (str_contains "Mount" name).
  - reflexivity.
Qed.

Lemma named_in_all_named (names : list (option string)) :
  ~ In None names -> exists out, named_in names = Ok out.
Proof.
  induction names as [|[name|] names IH]; simpl; intros Hno.
  - now exists [].
  - destruct IH as [out Hout]; [tauto|]. rewrite Hout.
    destruct (str_contains "Mount" name); simpl; eauto.
  - tauto.
Qed.

(** [get_named_volcanoes] raises exactly on the tables that hold a row
    without a name. *)
Lemma get_named_volcanoes_raises_iff (df : DataFrame) :
  get_named_volcanoes df = Raise TypeError
  <-> exists r, In r df /\ volcano_name r = None.
Proof.
  unfold get_named_volcanoes. split.
  - intros Hraise.
    assert (Hin : In None (map volcano_name df)).
    { revert Hraise. generalize (map volcano_name df) as names.
      induction names as [|[name|] names IH]; simpl.
      - discriminate.
      - intros Hraise. right. apply IH.
        destruct (str_contains "Mount" name); [|exact Hraise].
        destruct (named_in names); [discriminate|exact Hraise].
      - intros _. now left. }
    apply in_map_iff in Hin. destruct Hin as (r & Hr & Hin). eauto.
  - intros (r & Hin & Hr). apply named_in_null.
    rewrite <- Hr. now apply in_map.
Qed.

(** On named rows the comprehension keeps the names holding the exact
    text ["Mount"], in table order. *)
Example get_named_volcanoes_named :
  get_named_volcanoes
    [ sample_row (Some "Mount Etna") None None None None;
      sample_row (Some "Etna") None None None None;
      sample_row (Some "mount Fuji") None None None None;
      sample_row (Some "Fuji, Mount") None None None None ]
  = Ok ["Mount Etna"; "Fuji, Mount"].
Proof. reflexivity. Qed.

(** C2, at a table the program fails on.  One row whose name cell is
    empty is enough: [get_named_volcanoes], and [query1] through it,
    raise [TypeError] instead of leaving the row out of the list, while
    the region selection of the same page keeps the row without
    complaint. *)
Theorem get_named_volcanoes_null_name_raises :
  get_named_volcanoes [unnamed_row] = Raise TypeError
  /\ filterByRegion [unnamed_row] region_placeholder = [unnamed_row]
  /\ query1 [unnamed_row] region_placeholder = Raise TypeError
  /\ query1 [unnamed_row] "Africa" = Raise TypeError.
Proof. repeat split. Qed.

(** The selections built from masks follow the policy: a null cell in
    the column a selection reads leaves the row out, whatever the other
    columns hold. *)
Lemma mask_selections_drop_null (df : DataFrame) (r : Row) :
  (elevation r = None -> forall h, ~ In r (filterByMinElevation df h))
  /\ (year_erupted r = None ->
      forall lo hi, ~ In r (filterByYearRange df lo hi))
  /\ (volcanic_region r = None -> forall R, ~ In r (select_region df R)).
Proof.
  split; [|split].
  - intros Hnull h. rewrite filterByMinElevation_filter, filter_In.
    unfold elevation_ge. rewrite Hnull. intros [_ E]. discriminate.
  - intros Hnull lo hi. rewrite filterByYearRange_filter, filter_In.
    unfold year_between. rewrite Hnull. intros [_ E]. discriminate.
  - intros Hnull R. rewrite select_region_filter, filter_In.
    unfold region_is. rewrite Hnull. intros [_ E]. discriminate.
Qed.

(** ** Counters *)

Lemma count_insert_keys_in (k : string) (tbl : list (string * nat)) :
  In k (map fst tbl) -> map fst (count_insert k tbl) = map fst tbl.
Proof.
  induction tbl as [|[k' n] tbl IH]; simpl; [intros []|].
  intros Hin. destruct (String.eqb_spec k k') as [->|Hne]; [reflexivity|].
  simpl. f_equal. apply IH. destruct Hin as [E|Hin]; [congruence|exact Hin].
Qed.

Lemma count_insert_new (k : string) (tbl : list (string * nat)) :
  ~ In k (map fst tbl) -> count_insert k tbl = tbl ++ [(k, 1%nat)].
Proof.
  induction tbl as [|[k' n] tbl IH]; simpl; [reflexivity|].
  intros Hno. destruct (String.eqb_spec k k') as [->|Hne]; [tauto|].
  f_equal. apply IH. tauto.
Qed.

Lemma count_of_insert (k k' : string) (tbl : list (string * nat)) :
  count_of k' (count_insert k tbl)
  = if string_dec k k' then S (count_of k' tbl) else count_of k' tbl.
Proof.
  induction tbl as [|[k0 n] tbl IH]; simpl.
  - destruct (string_dec k k') as [->|Hne].
    + now rewrite String.eqb_refl.
    + destruct (String.eqb_spec k' k); [congruence|reflexivity].
  - destruct (String.eqb_spec k k0) as [->|Hne]; simpl.
    + destruct (string_dec k0 k') as [->|Hne'].
      * now rewrite String.eqb_refl.
      * destruct (String.eqb_spec k' k0); [congruence|reflexivity].
    + destruct (String.eqb_spec k' k0) as [->|Hne'].
      * destruct (string_dec k k0); [congruence|reflexivity].
      * exact IH.
Qed.

Lemma sum_counts_insert (k : string) (tbl : list (string * nat)) :
  sum_counts (count_insert k tbl) = S (sum_counts tbl).
Proof.
  induction tbl as [|[k' n] tbl IH]; simpl; [reflexivity|].
  destruct (String.eqb k k'); simpl; [reflexivity|].
  rewrite IH. lia.
Qed.

Lemma sum_counts_app (l1 l2 : list (string * nat)) :
  sum_counts (l1 ++ l2) = (sum_counts l1 + sum_counts l2)%nat.
Proof.
  induction l1 as [|p l1 IH]; simpl; [reflexivity|]. rewrite IH. lia.
Qed.

Lemma count_of_NoDup (tbl : list (string * nat)) (k : string) (n : nat) :
  NoDup (map fst tbl) -> In (k, n) tbl -> count_of k tbl = n.
Proof.
  induction tbl as [|[k' n'] tbl IH]; simpl; [intros _ []|].
  intros Hnd [E|Hin].
  - injection E as -> ->. now rewrite String.eqb_refl.
  - inversion Hnd as [|? ? Hnotin Hnd']; subst.
    destruct (String.eqb_spec k k') as [->|Hne].
    + elim Hnotin. change k' with (fst (k', n)). now apply in_map.
    + now apply IH.
Qed.

Lemma hash_value_count_snoc (col : list (option string))
  (cell : option string) :
  hash_value_count (col ++ [cell])
  = count_step (hash_value_count col) cell.
Proof. unfold hash_value_count. now rewrite fold_left_app. Qed.

Lemma hash_value_count_keys (col : list (option string)) (k : string) :
  In k (map fst (hash_value_count col)) <-> In (Some k) col.
Proof.
  induction col as [|cell col IH] using rev_ind; [simpl; tauto|].
  rewrite hash_value_count_snoc, in_app_iff. simpl.
  destruct cell as [s|]; simpl.
  - destruct (in_dec string_dec s (map fst (hash_value_count col)))
      as [Hin|Hno].
    + rewrite (count_insert_keys_in _ _ Hin), IH. split; [tauto|].
      intros [H|[E|[]]]; [exact H|].
      injection E as ->. now apply IH.
    + rewrite (count_insert_new _ _ Hno), map_app, in_app_iff, IH. simpl.
      split; intros [H|[E|[]]]; auto; right; left; congruence.
  - rewrite IH. split; [tauto|]. intros [H|[E|[]]]; [exact H|discriminate].
Qed.

Lemma hash_value_count_NoDup (col : list (option string)) :
  NoDup (map fst (hash_value_count col)).
Proof.
  induction col as [|cell col IH] using rev_ind; [constructor|].
  rewrite hash_value_count_snoc. destruct cell as [s|]; simpl; [|exact IH].
  destruct (in_dec string_dec s (map fst (hash_value_count col)))
    as [Hin|Hno].
  - now rewrite (count_insert_keys_in _ _ Hin).
  - rewrite (count_insert_new _ _ Hno), map_app. simpl.
    apply NoDup_app; [exact IH|repeat constructor; simpl; tauto|].
    intros x Hx [<-|[]]. contradiction.
Qed.

Lemma occurrences_snoc (k : string) (col : list (option string))
  (cell : option string) :
  occurrences k (col ++ [cell])
  = (occurrences k col
     + match cell with
       | Some s => if string_dec s k then 1 else 0
       | None => 0
       end)%nat.
Proof.
  induction col as [|[s|] col IH]; simpl.
  - destruct cell as [s|]; [destruct (string_dec s k)|]; reflexivity.
  - rewrite IH. destruct (string_dec s k); reflexivity.
  - exact IH.
Qed.

Lemma hash_value_count_count_of (col : list (option string)) (k : string) :
  count_of k (hash_value_count col) = occurrences k col.
Proof.
  induction col as [|cell col IH] using rev_ind; [reflexivity|].
  rewrite hash_value_count_snoc, occurrences_snoc.
  destruct cell as [s|]; simpl; [|lia].
  rewrite count_of_insert, IH. destruct (string_dec s k); lia.
Qed.

Lemma occurrences_pos (k : string) (col : list (option string)) :
  In (Some k) col -> (0 < occurrences k col)%nat.
Proof.
  induction col as [|[s|] col IH]; simpl.
  - intros [].
  - intros [E|Hin].
    + injection E as ->. destruct (string_dec k k); [lia|congruence].
    + destruct (string_dec s k); [lia|now apply IH].
  - intros [E|Hin]; [discriminate|now apply IH].
Qed.

Lemma hash_value_count_sum (col : list (option string)) :
  (sum_counts (hash_value_count col) <= List.length col)%nat.
Proof.
  induction col as [|cell col IH] using rev_ind; [simpl; lia|].
  rewrite hash_value_count_snoc, length_app. simpl.
  destruct cell as [s|]; simpl; [rewrite sum_counts_insert|]; lia.
Qed.

(** The counters stand in the order in which their categories are first
    met. *)
Lemma hash_value_count_order (col : list (option string)) :
  forall a b c k1 k2,
    map fst (hash_value_count col) = a ++ k1 :: b ++ k2 :: c ->
    encountered_before k1 k2 col.
Proof.
  induction col as [|cell col IH] using rev_ind; intros a b c k1 k2 Hkeys.
  - destruct a; discriminate.
  - assert (Hext : encountered_before k1 k2 col ->
                   encountered_before k1 k2 (col ++ [cell])).
    { intros (pre & post & -> & Hpre).
      exists pre, (post ++ [cell]). split; [|exact Hpre].
      now rewrite <- app_assoc. }
    rewrite hash_value_count_snoc in Hkeys.
    destruct cell as [s|]; simpl in Hkeys; [|eauto].
    destruct (in_dec string_dec s (map fst (hash_value_count col)))
      as [Hin|Hno].
    + rewrite (count_insert_keys_in _ _ Hin) in Hkeys. eauto.
    + rewrite (count_insert_new _ _ Hno), map_app in Hkeys. simpl in Hkeys.
      destruct c as [|x c] using rev_ind.
      * change (a ++ k1 :: b ++ [k2]) with (a ++ (k1 :: b) ++ [k2]) in Hkeys.
        rewrite app_assoc in Hkeys.
        apply app_inj_tail in Hkeys. destruct Hkeys as [Hkeys <-].
        assert (Hk1 : In (Some k1) col).
        { apply hash_value_count_keys. rewrite Hkeys.
          apply in_or_app. right. now left. }
        apply in_split in Hk1. destruct Hk1 as (pre & post & ->).
        exists pre, (post ++ [Some s]). split.
        -- now rewrite <- app_assoc.
        -- intros Hs. apply Hno. apply hash_value_count_keys.
           apply in_or_app. now left.
      * clear IHc.
        replace (a ++ k1 :: b ++ k2 :: c ++ [x])
          with ((a ++ k1 :: b ++ k2 :: c) ++ [x]) in Hkeys.
        2:{ rewrite <- app_assoc. simpl. rewrite <- app_assoc. reflexivity. }
        apply app_inj_tail in Hkeys. destruct Hkeys as [Hkeys _]. eauto.
Qed.

(** ** Sorting the counters *)

Lemma count_ge_trans : Relations_1.Transitive count_ge.
Proof. intros p q r. unfold count_ge. lia. Qed.

Lemma StronglySorted_prefix {A : Type} (R : A -> A -> Prop)
  (l1 l2 : list A) :
  StronglySorted R (l1 ++ l2) -> StronglySorted R l1.
Proof.
  induction l1 as [|x l1 IH]; simpl; intros H; [constructor|].
  apply StronglySorted_inv in H. destruct H as [Hs Hall].
  constructor; [now apply IH|].
  apply Forall_app in Hall. tauto.
Qed.

Lemma sum_counts_Permutation (l l' : list (string * nat)) :
  Permutation l l' -> sum_counts l = sum_counts l'.
Proof.
  induction 1; simpl; lia.
Qed.

Lemma filter_split {A : Type} (f : A -> bool) (l a b : list A) (x : A) :
  filter f l = a ++ x :: b ->
  exists a' b', l = a' ++ x :: b' /\ filter f b' = b.
Proof.
  revert a. induction l as [|y l IH]; simpl; intros a H.
  - destruct a; discriminate.
  - destruct (f y) eqn:E.
    + destruct a as [|z a]; simpl in H; injection H as Hy H; subst y.
      * exists [], l. now split.
      * destruct (IH _ H) as (a' & b' & -> & Hb).
        exists (z :: a'), b'. now split.
    + destruct (IH _ H) as (a' & b' & -> & Hb).
      exists (y :: a'), b'. now split.
Qed.

Lemma filter_split2 {A : Type} (f : A -> bool) (l a b c : list A)
  (x y : A) :
  filter f l = a ++ x :: b ++ y :: c ->
  exists a' b' c', l = a' ++ x :: b' ++ y :: c'.
Proof.
  intros H. destruct (filter_split _ _ _ _ _ H) as (a' & l' & -> & Hl').
  destruct (filter_split _ _ _ _ _ Hl') as (b' & c' & -> & _).
  now exists a', b', c'.
Qed.

(** The sample sort meets the contract and is stable. *)
Lemma insert_before_ties_perm (x : string * nat) (l : list (string * nat)) :
  Permutation (x :: l) (insert_before_ties x l).
Proof.
  induction l as [|y l IH]; simpl; [reflexivity|].
  destruct (snd y <=? snd x)%nat; [reflexivity|].
  rewrite perm_swap. now apply perm_skip.
Qed.

Lemma insert_before_ties_sorted (x : string * nat)
  (l : list (string * nat)) :
  StronglySorted count_ge l -> StronglySorted count_ge (insert_before_ties x l).
Proof.
  induction l as [|y l IH]; simpl; intros Hs.
  - repeat constructor.
  - apply StronglySorted_inv in Hs. destruct Hs as [Hs Hall].
    destruct (Nat.leb_spec (snd y) (snd x)) as [Hle|Hgt].
    + constructor; [now constructor|].
      constructor; [exact Hle|].
      eapply Forall_impl; [|exact Hall].
      intros z Hz. unfold count_ge in *. lia.
    + constructor; [now apply IH|].
      apply (Permutation_Forall (insert_before_ties_perm x l)).
      constructor; [unfold count_ge; lia|exact Hall].
Qed.

Lemma insert_before_ties_filter (x : string * nat)
  (l : list (string * nat)) (n : nat) :
  filter (fun p => Nat.eqb (snd p) n) (insert_before_ties x l)
  = filter (fun p => Nat.eqb (snd p) n) (x :: l).
Proof.
  induction l as [|y l IH]; [reflexivity|].
  cbn [insert_before_ties].
  destruct (Nat.leb_spec (snd y) (snd x)) as [Hle|Hgt]; [reflexivity|].
  cbn [filter] in *. rewrite IH.
  destruct (Nat.eqb_spec (snd x) n) as [Hx|Hx]; [|reflexivity].
  destruct (Nat.eqb_spec (snd y) n) as [Hy|Hy]; [lia|reflexivity].
Qed.

Lemma sort_values_stable_descending : descending_sort sort_values_stable.
Proof.
  split; intros l.
  - induction l as [|x l IH]; simpl; [constructor|].
    rewrite <- insert_before_ties_perm. now apply perm_skip.
  - apply StronglySorted_Sorted.
    induction l as [|x l IH]; simpl; [constructor|].
    now apply insert_before_ties_sorted.
Qed.

Lemma sort_values_stable_stable : stable_sort sort_values_stable.
Proof.
  intros l n. induction l as [|x l IH]; [reflexivity|].
  cbn [sort_values_stable fold_right].
  rewrite insert_before_ties_filter. cbn [filter].
  fold (sort_values_stable l). now rewrite IH.
Qed.

(** ** Top categories *)

Section TopCategoryCounts.

Variable sort : list (string * nat) -> list (string * nat).
Hypothesis sort_descending : descending_sort sort.

Lemma value_counts_In (col : list (option string)) (k : string) (n : nat) :
  In (k, n) (value_counts sort col) ->
  n = occurrences k col /\ (0 < n)%nat.
Proof.
  intros Hin. unfold value_counts in Hin.
  apply (Permutation_in _ (Permutation_sym
           (proj1 sort_descending (hash_value_count col)))) in Hin.
  assert (Hn : n = occurrences k col).
  { rewrite <- hash_value_count_count_of. symmetry.
    apply count_of_NoDup; [apply hash_value_count_NoDup|exact Hin]. }
  split; [exact Hn|]. rewrite Hn. apply occurrences_pos.
  apply hash_value_count_keys.
  change k with (fst (k, n)). now apply in_map.
Qed.

Lemma value_counts_ties (col : list (option string)) :
  stable_sort sort ->
  forall l1 l2 l3 k1 k2 n,
    value_counts sort col = l1 ++ (k1, n) :: l2 ++ (k2, n) :: l3 ->
    encountered_before k1 k2 col.
Proof.
  intros Hstable l1 l2 l3 k1 k2 n Hout.
  pose proof (Hstable (hash_value_count col) n) as Hf.
  fold (value_counts sort col) in Hf. rewrite Hout in Hf.
  rewrite filter_app in Hf. cbn [filter snd] in Hf.
  rewrite Nat.eqb_refl, filter_app in Hf. cbn [filter snd] in Hf.
  rewrite Nat.eqb_refl in Hf. symmetry in Hf.
  destruct (filter_split2 _ _ _ _ _ _ _ Hf) as (a & b & c & Htbl).
  apply (hash_value_count_order col (map fst a) (map fst b) (map fst c)).
  rewrite Htbl, map_app. simpl. now rewrite map_app.
Qed.

(** X23.  For every table and every [N], and for every library sort that
    returns the counters in descending order, the program returns at
    most [N] pairs, by descending count, whose categories are distinct,
    each with the number of rows of that category, and whose counts add
    up to no more than the number of rows.  Two categories with the same
    count stand in the order the library sort gives them: whenever that
    sort is stable, it is the order in which they are first met in the
    table. *)
Theorem topCategoryCounts_spec (df : DataFrame) (N : nat) :
  let col := map primary_volcano_type df in
  let out := topCategoryCounts sort df N in
  (List.length out <= N)%nat
  /\ StronglySorted count_ge out
  /\ (sum_counts out <= List.length df)%nat
  /\ NoDup (map fst out)
  /\ (forall k n, In (k, n) out -> n = occurrences k col /\ (0 < n)%nat)
  /\ (stable_sort sort -> ties_first_encountered col out).
Proof.
  intros col out.
  assert (Hsplit : out ++ skipn N (value_counts sort col)
                   = value_counts sort col) by apply firstn_skipn.
  pose proof (proj1 sort_descending (hash_value_count col)) as Hperm.
  fold (value_counts sort col) in Hperm.
  repeat split.
  - apply firstn_le_length.
  - apply (StronglySorted_prefix _ out (skipn N (value_counts sort col))).
    rewrite Hsplit. apply (Sorted_StronglySorted count_ge_trans).
    apply sort_descending.
  - rewrite <- (length_map primary_volcano_type df). fold col.
    pose proof (hash_value_count_sum col) as Hsum.
    rewrite (sum_counts_Permutation _ _ Hperm), <- Hsplit in Hsum.
    rewrite sum_counts_app in Hsum. lia.
  - apply (NoDup_app_remove_r _ (map fst (skipn N (value_counts sort col)))).
    rewrite <- map_app, Hsplit.
    apply (Permutation_NoDup (Permutation_map fst Hperm)).
    apply hash_value_count_NoDup.
  - apply (value_counts_In col k n). rewrite <- Hsplit.
    apply in_or_app. now left.
  - apply (value_counts_In col k n). rewrite <- Hsplit.
    apply in_or_app. now left.
  - intros Hstable l1 l2 l3 k1 k2 n Hout.
    apply (value_counts_ties col Hstable l1 l2
             (l3 ++ skipn N (value_counts sort col)) k1 k2 n).
    etransitivity; [symmetry; exact Hsplit|].
    rewrite Hout, <- !app_assoc. simpl.
    rewrite <- !app_assoc. reflexivity.
Qed.

End TopCategoryCounts.

Lemma topCategoryCounts_spec_witness :
  topCategoryCounts sort_values_stable tied_types 10
  = [("Shield", 2%nat); ("Stratovolcano", 1%nat); ("Caldera", 1%nat)]
  /\ (sum_counts (topCategoryCounts sort_values_stable tied_types 10)
      <= List.length tied_types)%nat
  /\ ties_first_encountered (map primary_volcano_type tied_types)
       (topCategoryCounts sort_values_stable tied_types 10).
Proof.
  pose proof (topCategoryCounts_spec sort_values_stable
                sort_values_stable_descending tied_types 10) as H.
  cbv zeta in H. destruct H as (_ & _ & Hsum & _ & _ & Hties).
  split; [reflexivity|]. split; [exact Hsum|].
  exact (Hties sort_values_stable_stable).
Defined.

(** * Further properties of the program *)

(** ** What [load_data] keeps and what it derives *)

(** X1.  When [load_data] returns, it has touched two columns only: every
    other column comes back cell for cell, with the rows in their
    order. *)
Theorem load_data_keeps_columns (raw : list RawRow) (df : DataFrame) :
  load_data raw = Ok df ->
  map volcano_name df = map raw_volcano_name raw
  /\ map country df = map raw_country raw
  /\ map volcanic_region df = map raw_volcanic_region raw
  /\ map primary_volcano_type df = map raw_primary_volcano_type raw
  /\ map tectonic_setting df = map raw_tectonic_setting raw
  /\ map elevation df = map raw_elevation raw.
Proof.
  intros Hload. apply load_data_Ok_rows in Hload. subst df.
  rewrite !map_map. repeat split.
Qed.

Lemma load_data_keeps_columns_witness :
  exists df,
    load_data [sample_raw (Some "1991 (Pinatubo)"); sample_raw (Some "?");
               sample_raw None] = Ok df
    /\ map elevation df = [Some 1486%Z; Some 1486%Z; Some 1486%Z].
Proof.
  eexists. split; [reflexivity|].
  destruct (load_data_keeps_columns
              [sample_raw (Some "1991 (Pinatubo)"); sample_raw (Some "?");
               sample_raw None] _ eq_refl) as (_ & _ & _ & _ & _ & Helev).
  exact Helev.
Defined.

Lemma Forall2_map_r {A B : Type} (P : A -> B -> Prop) (f : A -> B)
  (l : list A) :
  (forall x, P x (f x)) -> Forall2 P l (map f l).
Proof.
  intros H. induction l as [|x l IH]; simpl; constructor; auto.
Qed.

Lemma replace_na_sentinel (s : string) :
  replace_na eruption_sentinels (Some s) = None
  <-> s = "Unknown" \/ s = "?" \/ s = "No data" \/ s = "".
Proof.
  unfold replace_na.
  destruct (existsb (String.eqb s) eruption_sentinels) eqn:E.
  - split; [intros _|reflexivity].
    apply existsb_exists in E. destruct E as (t & Hin & Heq).
    apply String.eqb_eq in Heq. subst t. simpl in Hin.
    destruct Hin as [<- | [<- | [<- | [<- | []]]]]; auto.
  - split; [discriminate|]. intros Hs.
    assert (Hex : existsb (String.eqb s) eruption_sentinels = true);
      [|congruence].
    destruct Hs as [-> | [-> | [-> | ->]]]; reflexivity.
Qed.

(** X2.  When [load_data] returns, the eruption date it stores is the raw
    text, except that a raw text equal to one of the four sentinels is
    stored as null; an eruption date is null exactly when the raw cell
    is empty or holds a sentinel.  Texts that merely contain a sentinel
    are kept. *)
Theorem load_data_eruption_date (raw : list RawRow) (df : DataFrame) :
  load_data raw = Ok df ->
  Forall2
    (fun r row =>
       (forall t, last_known_eruption row = Some t ->
                  raw_last_known_eruption r = Some t)
       /\ (last_known_eruption row = None <->
           raw_last_known_eruption r = None
           \/ raw_last_known_eruption r = Some "Unknown"
           \/ raw_last_known_eruption r = Some "?"
           \/ raw_last_known_eruption r = Some "No data"
           \/ raw_last_known_eruption r = Some ""))
    raw df.
Proof.
  intros Hload. apply load_data_Ok_rows in Hload. subst df.
  apply Forall2_map_r. intros r.
  change (last_known_eruption (normalize_row r))
    with (replace_na eruption_sentinels (raw_last_known_eruption r)).
  destruct (raw_last_known_eruption r) as [s|].
  - split.
    + intros t Ht. f_equal. symmetry. exact (replace_na_Some _ _ _ Ht).
    + rewrite replace_na_sentinel. split.
      * intros [-> | [-> | [-> | ->]]]; auto.
      * intros [E | [E | [E | [E | E]]]]; try discriminate;
          injection E as ->; auto.
  - split; [discriminate|]. split; auto.
Qed.

Lemma load_data_eruption_date_witness :
  exists df,
    load_data [sample_raw (Some "1991 (Pinatubo)"); sample_raw (Some "?");
               sample_raw None] = Ok df
    /\ map last_known_eruption df = [Some "1991 (Pinatubo)"; None; None]
    /\ Forall2
         (fun r row =>
            (forall t, last_known_eruption row = Some t ->
                       raw_last_known_eruption r = Some t)
            /\ (last_known_eruption row = None <->
                raw_last_known_eruption r = None
                \/ raw_last_known_eruption r = Some "Unknown"
                \/ raw_last_known_eruption r = Some "?"
                \/ raw_last_known_eruption r = Some "No data"
                \/ raw_last_known_eruption r = Some ""))
         [sample_raw (Some "1991 (Pinatubo)"); sample_raw (Some "?");
               sample_raw None] df.
Proof.
  eexists. split; [reflexivity|]. split; [reflexivity|].
  exact (load_data_eruption_date
           [sample_raw (Some "1991 (Pinatubo)"); sample_raw (Some "?");
               sample_raw None] _ eq_refl).
Defined.

Lemma extract_year_range (text : option string) (y : Z) :
  extract_year text = Some y ->
  (0 <= y <= 9999)%Z /\ exists s, text = Some s.
Proof.
  unfold extract_year. destruct text as [s|]; [|discriminate].
  destruct (re_search_d4 s) as [m|] eqn:Hs; [|discriminate].
  rewrite (re_search_d4_parses _ _ Hs). intros E. injection E as <-.
  split; [|now exists s].
  destruct (re_search_d4_Some _ _ Hs) as (i & Hi & _ & ->).
  destruct Hi as (a & b & c & d & -> & Ha & Hb & Hc & Hd).
  apply digit_value_range in Ha, Hb, Hc, Hd.
  cbn [decimal_value String.length]. simpl Z.of_nat.
  change (10 ^ 3)%Z with 1000%Z. change (10 ^ 2)%Z with 100%Z.
  change (10 ^ 1)%Z with 10%Z. change (10 ^ 0)%Z with 1%Z. lia.
Qed.

Lemma normalize_row_invariant (r : RawRow) (y : Z) :
  year_erupted (normalize_row r) = Some y ->
  (0 <= y <= 9999)%Z /\ last_known_eruption (normalize_row r) <> None.
Proof.
  intros Hy.
  change (year_erupted (normalize_row r))
    with (extract_year (replace_na eruption_sentinels
                          (raw_last_known_eruption r))) in Hy.
  change (last_known_eruption (normalize_row r))
    with (replace_na eruption_sentinels (raw_last_known_eruption r)).
  destruct (extract_year_range _ _ Hy) as (Hrange & s & Hs).
  split; [exact Hrange|congruence].
Qed.

(** X3.  In a table [load_data] returns, every derived year lies between
    0 and 9999, and a row that has a year has a non-null eruption date:
    the year is read from the date left after the sentinels are
    removed. *)
Theorem load_data_year_invariant (raw : list RawRow) (df : DataFrame) :
  load_data raw = Ok df ->
  Forall (fun row =>
            forall y, year_erupted row = Some y ->
                      (0 <= y <= 9999)%Z
                      /\ last_known_eruption row <> None) df.
Proof.
  intros Hload. apply load_data_Ok_rows in Hload. subst df.
  apply Forall_forall. intros row Hin.
  apply in_map_iff in Hin. destruct Hin as (r & <- & _).
  intros y Hy. now apply normalize_row_invariant.
Qed.

Lemma load_data_year_invariant_witness :
  exists df,
    load_data [sample_raw (Some "1991 (Pinatubo)"); sample_raw (Some "?");
               sample_raw None] = Ok df
    /\ map year_erupted df = [Some 1991%Z; None; None]
    /\ Forall (fun row =>
                 forall y, year_erupted row = Some y ->
                           (0 <= y <= 9999)%Z
                           /\ last_known_eruption row <> None) df.
Proof.
  eexists. split; [reflexivity|]. split; [reflexivity|].
  exact (load_data_year_invariant
           [sample_raw (Some "1991 (Pinatubo)"); sample_raw (Some "?");
               sample_raw None] _ eq_refl).
Defined.

Lemma query4_filtered_known (df : DataFrame) :
  query4_filtered df [] region_placeholder true
  = filter (fun r => match last_known_eruption r with
                     | Some _ => true
                     | None => false
                     end) df.
Proof.
  unfold query4_filtered, series_notna. cbn [negb String.eqb].
  rewrite String.eqb_refl. cbn [negb]. rewrite map_map.
  apply getitem_mask_map.
Qed.

(** X4.  On a loaded table the known-eruption box of [query4] removes no row
    that a year range of [query3] keeps: filtering by known eruption and
    then by years gives what filtering by years alone gives. *)
Theorem known_eruption_keeps_year_range (raw : list RawRow)
  (df : DataFrame) (min_year max_year : Z) :
  load_data raw = Ok df ->
  filterByYearRange (query4_filtered df [] region_placeholder true)
    min_year max_year
  = filterByYearRange df min_year max_year.
Proof.
  intros Hload. apply load_data_Ok_rows in Hload. subst df.
  rewrite query4_filtered_known, !filterByYearRange_filter, filter_filter.
  apply filter_ext_in. intros row Hin.
  apply in_map_iff in Hin. destruct Hin as (r & <- & _).
  unfold year_between.
  destruct (year_erupted (normalize_row r)) as [y|] eqn:Hy.
  - destruct (normalize_row_invariant r y Hy) as [_ Hdate].
    destruct (last_known_eruption (normalize_row r));
      [reflexivity|congruence].
  - apply andb_false_r.
Qed.

Lemma known_eruption_keeps_year_range_witness :
  exists df,
    load_data [sample_raw (Some "1991 (Pinatubo)"); sample_raw (Some "?");
               sample_raw (Some "Holocene")] = Ok df
    /\ List.length
         (filterByYearRange (query4_filtered df [] region_placeholder true)
            1900 2025) = 1%nat.
Proof.
  eexists. split; [reflexivity|].
  rewrite (known_eruption_keeps_year_range
             [sample_raw (Some "1991 (Pinatubo)"); sample_raw (Some "?");
              sample_raw (Some "Holocene")] _ 1900 2025 eq_refl).
  reflexivity.
Defined.

(** ** Names holding "Mount" *)

Lemma prefix_app (pat s : string) :
  String.prefix pat s = true <-> exists b, s = (pat ++ b)%string.
Proof.
  revert s. induction pat as [|c pat IH]; intros s; simpl.
  - split; [intros _; now exists s|intros _; now destruct s].
  - destruct s as [|c' s]; simpl.
    + split; [discriminate|]. intros [b Hb]. discriminate.
    + destruct (Ascii.ascii_dec c c') as [->|Hne].
      * rewrite IH. split; intros [b Hb]; exists b; congruence.
      * split; [discriminate|]. intros [b Hb]. congruence.
Qed.

(** Python's [in] on two strings is the substring test. *)
Lemma str_contains_substring (pat s : string) :
  str_contains pat s = true <-> is_substring pat s.
Proof.
  unfold is_substring. induction s as [|c s IH]; cbn [str_contains].
  - destruct (String.prefix pat "") eqn:Hp.
    + apply prefix_app in Hp. destruct Hp as [b Hb].
      split; [intros _; now exists "", b|reflexivity].
    + split; [discriminate|]. intros (a & b & Hab).
      destruct a; [|discriminate]. simpl in Hab.
      assert (String.prefix pat "" = true) by (apply prefix_app; eauto).
      congruence.
  - destruct (String.prefix pat (String c s)) eqn:Hp.
    + apply prefix_app in Hp. destruct Hp as [b Hb].
      split; [intros _; now exists "", b|reflexivity].
    + rewrite IH. split.
      * intros (a & b & ->). now exists (String c a), b.
      * intros (a & b & Hab). destruct a as [|c' a]; simpl in Hab.
        -- assert (String.prefix pat (String c s) = true)
             by (apply prefix_app; eauto).
           congruence.
        -- injection Hab as _ ->. now exists a, b.
Qed.

Lemma named_in_Selects (names : list (option string)) :
  ~ In None names ->
  exists out, named_in names = Ok out
              /\ Selects (is_substring "Mount") (dropna names) out.
Proof.
  induction names as [|[name|] names IH]; simpl; intros Hno.
  - exists []. split; [reflexivity|constructor].
  - destruct IH as (out & Hout & Hsel); [tauto|]. rewrite Hout.
    destruct (str_contains "Mount" name) eqn:E; simpl.
    + exists (name :: out). split; [reflexivity|].
      apply Selects_keep; [now apply str_contains_substring|exact Hsel].
    + exists out. split; [reflexivity|].
      apply Selects_drop; [|exact Hsel].
      intros H. apply str_contains_substring in H. congruence.
  - tauto.
Qed.

(** X5.  When every row has a name, [get_named_volcanoes] returns exactly the
    names in which the text "Mount" occurs, each as often as it occurs
    in the table and in table order. *)
Theorem get_named_volcanoes_named_rows (df : DataFrame) :
  (forall r, In r df -> volcano_name r <> None) ->
  exists out,
    get_named_volcanoes df = Ok out
    /\ Selects (is_substring "Mount") (dropna (map volcano_name df)) out.
Proof.
  intros Hnamed. apply named_in_Selects.
  intros Hin. apply in_map_iff in Hin. destruct Hin as (r & Hr & Hin).
  exact (Hnamed r Hin Hr).
Qed.

Lemma get_named_volcanoes_named_rows_witness :
  exists out,
    get_named_volcanoes
      [ sample_row (Some "Mount Etna") None None None None;
        sample_row (Some "Etna") None None None None ] = Ok out
    /\ Selects (is_substring "Mount") ["Mount Etna"; "Etna"] out.
Proof.
  apply (get_named_volcanoes_named_rows
           [ sample_row (Some "Mount Etna") None None None None;
             sample_row (Some "Etna") None None None None ]).
  intros r [<-|[<-|[]]]; discriminate.
Defined.

(** X6.  [query1] fails with [TypeError] exactly when a row of the selected
    region has no name: a nameless row of another region does not stop
    the page for this one, and with no region selected any nameless row
    does. *)
Theorem query1_raises_iff (df : DataFrame) (region : string) :
  query1 df region = Raise TypeError
  <-> exists r, In r (filterByRegion df region) /\ volcano_name r = None.
Proof.
  rewrite <- get_named_volcanoes_raises_iff. unfold query1.
  destruct (get_named_volcanoes (filterByRegion df region)) as [out|e];
    simpl; split; congruence.
Qed.

(** ** How the selections compose *)

(** X8.  Two elevation thresholds in a row select what the higher one
    selects. *)
Theorem filterByMinElevation_compose (df : DataFrame) (t t' : Z) :
  filterByMinElevation (filterByMinElevation df t) t'
  = filterByMinElevation df (Z.max t t').
Proof.
  rewrite !filterByMinElevation_filter, filter_filter.
  apply filter_ext. intros r. unfold elevation_ge.
  destruct (elevation r) as [e|]; [|reflexivity].
  destruct (Z.leb_spec t e), (Z.leb_spec t' e), (Z.leb_spec (Z.max t t') e);
    simpl; try reflexivity; lia.
Qed.

(** X9.  Two year ranges in a row select the years both ranges hold. *)
Theorem filterByYearRange_compose (df : DataFrame) (lo hi lo' hi' : Z) :
  filterByYearRange (filterByYearRange df lo hi) lo' hi'
  = filterByYearRange df (Z.max lo lo') (Z.min hi hi').
Proof.
  rewrite !filterByYearRange_filter, filter_filter.
  apply filter_ext. intros r. unfold year_between.
  destruct (year_erupted r) as [y|]; [|reflexivity].
  destruct (Z.leb_spec lo y), (Z.leb_spec y hi), (Z.leb_spec lo' y),
    (Z.leb_spec y hi'), (Z.leb_spec (Z.max lo lo') y),
    (Z.leb_spec y (Z.min hi hi')); simpl; try reflexivity; lia.
Qed.

Lemma setting_is_true (setting : string) (r : Row) :
  match tectonic_setting r with
  | Some s => String.eqb s setting
  | None => false
  end = true <-> tectonic_setting r = Some setting.
Proof.
  destruct (tectonic_setting r) as [s|].
  - rewrite String.eqb_eq. split; congruence.
  - split; discriminate.
Qed.

(** X10.  The rows [query3] shows are exactly those with a year inside the
    range, ends included, and, when a tectonic setting is chosen, with
    that very setting; rows with a null year or (then) a null setting
    are left out.  The number it reports is the number of those rows and
    never exceeds the size of the table. *)
Theorem query3_spec (df : DataFrame) (min_year max_year : Z)
  (setting : string) :
  Selects
    (fun r => (exists y, year_erupted r = Some y
                         /\ (min_year <= y <= max_year)%Z)
              /\ (setting <> setting_placeholder ->
                  tectonic_setting r = Some setting))
    df (fst (query3 df (min_year, max_year) setting))
  /\ snd (query3 df (min_year, max_year) setting)
     = List.length (fst (query3 df (min_year, max_year) setting))
  /\ (snd (query3 df (min_year, max_year) setting) <= List.length df)%nat.
Proof.
  cbn [query3 fst snd].
  assert (Hfilter :
    query3_filtered df (min_year, max_year) setting
    = filter (fun r =>
                year_between min_year max_year r
                && (String.eqb setting setting_placeholder
                    || match tectonic_setting r with
                       | Some s => String.eqb s setting
                       | None => false
                       end)) df).
  { unfold query3_filtered, series_between, series_eq. cbn [fst snd].
    rewrite !map_map.
    destruct (String.eqb setting setting_placeholder).
    - rewrite getitem_mask_map. apply filter_ext. intros r.
      unfold year_between. now rewrite andb_true_r.
    - rewrite (mask_and_map (year_between min_year max_year)).
      now rewrite getitem_mask_map. }
  rewrite Hfilter. split; [|split; [reflexivity|apply filter_length_le]].
  apply filter_Selects. intros r.
  rewrite andb_true_iff, orb_true_iff, year_between_true, setting_is_true,
    String.eqb_eq.
  split.
  - intros [Hy [Hs|Hs]]; split; auto. intros Hne. contradiction.
  - intros [Hy Hs]. split; [exact Hy|].
    destruct (string_dec setting setting_placeholder); auto.
Qed.

Lemma query4_filtered_filter (df : DataFrame) (types : list string)
  (region : string) (known_only : bool) :
  query4_filtered df types region known_only
  = filter (query4_keeps_b types region known_only) df.
Proof.
  unfold query4_filtered, series_notna, series_isin, query4_keeps_b.
  assert (Hk : (if known_only
                then getitem_mask df
                       (map (fun cell : option string =>
                               match cell with
                               | Some _ => true
                               | None => false
                               end) (map last_known_eruption df))
                else df)
               = filter (fun r => negb known_only
                                  || match last_known_eruption r with
                                     | Some _ => true
                                     | None => false
                                     end) df).
  { destruct known_only; simpl.
    - rewrite map_map. apply getitem_mask_map.
    - symmetry. now apply filter_all. }
  rewrite Hk. clear Hk.
  set (known := filter _ df).
  assert (Hr : (if negb (String.eqb region region_placeholder)
                then select_region known region else known)
               = filter (fun r => String.eqb region region_placeholder
                                  || region_is region r) known).
  { destruct (String.eqb region region_placeholder); simpl.
    - symmetry. now apply filter_all.
    - apply select_region_filter. }
  rewrite Hr. clear Hr. unfold known. rewrite filter_filter.
  destruct types as [|t types].
  - apply filter_ext. intros r. simpl. now rewrite andb_true_r.
  - rewrite map_map, getitem_mask_map, filter_filter.
    apply filter_ext. intros r. simpl. now rewrite andb_assoc.
Qed.

Lemma query4_keeps_b_true (types : list string) (region : string)
  (known_only : bool) (r : Row) :
  query4_keeps_b types region known_only r = true
  <-> (known_only = true -> last_known_eruption r <> None)
      /\ (region <> region_placeholder -> volcanic_region r = Some region)
      /\ (types <> [] ->
          exists t, primary_volcano_type r = Some t /\ In t types).
Proof.
  unfold query4_keeps_b.
  rewrite !andb_true_iff, !orb_true_iff, region_is_true, String.eqb_eq,
    negb_true_iff.
  split.
  - intros (Hk & Hr & Ht). repeat split.
    + intros ->. destruct Hk as [Hk|Hk]; [discriminate|].
      now destruct (last_known_eruption r).
    + intros Hne. destruct Hr as [Hr|Hr]; [contradiction|exact Hr].
    + intros Hne. destruct Ht as [Ht|Ht].
      * destruct types; [contradiction|discriminate].
      * destruct (primary_volcano_type r) as [s|]; [|discriminate].
        apply existsb_exists in Ht. destruct Ht as (t & Hin & Heq).
        apply String.eqb_eq in Heq. subst t. now exists s.
  - intros (Hk & Hr & Ht). repeat split.
    + destruct known_only; [right|now left].
      specialize (Hk eq_refl). now destruct (last_known_eruption r).
    + destruct (string_dec region region_placeholder); auto.
    + destruct types as [|t0 types]; [now left|right].
      destruct Ht as (t & Hty & Hin); [discriminate|]. rewrite Hty.
      apply existsb_exists. exists t. split; [exact Hin|].
      apply String.eqb_refl.
Qed.

(** X11.  The rows [query4] counts are exactly those that pass every filter
    that is switched on: a non-null eruption date when the box is
    ticked, the chosen region unless the placeholder is selected, and a
    type among the chosen ones unless none is chosen. *)
Theorem query4_filtered_spec (df : DataFrame) (types : list string)
  (region : string) (known_only : bool) :
  Selects
    (fun r => (known_only = true -> last_known_eruption r <> None)
              /\ (region <> region_placeholder ->
                  volcanic_region r = Some region)
              /\ (types <> [] ->
                  exists t, primary_volcano_type r = Some t /\ In t types))
    df (query4_filtered df types region known_only).
Proof.
  rewrite query4_filtered_filter. apply filter_Selects.
  apply query4_keeps_b_true.
Qed.

(** ** The year slider of [query3] *)

Lemma series_min_le (rest : list Z) :
  forall first,
    (series_min first rest <= first)%Z
    /\ Forall (fun y => (series_min first rest <= y)%Z) rest
    /\ In (series_min first rest) (first :: rest).
Proof.
  unfold series_min.
  induction rest as [|y rest IH]; intros first; simpl.
  - split; [lia|split; [constructor|now left]].
  - destruct (IH (Z.min first y)) as (Hle & Hall & Hin).
    split; [lia|split].
    + constructor; [lia|exact Hall].
    + destruct Hin as [Hin|Hin]; [|now right; right].
      destruct (Z.min_spec first y) as [[_ E]|[_ E]];
        [left|right; left]; congruence.
Qed.

Lemma In_dropna {A : Type} (col : list (option A)) (v : A) :
  In v (dropna col) <-> In (Some v) col.
Proof.
  induction col as [|[w|] col IH]; simpl.
  - tauto.
  - rewrite IH. split; intros [E|H]; auto; left; congruence.
  - rewrite IH. split; [auto|]. intros [E|H]; [discriminate|exact H].
Qed.

Lemma query3_min_year_bounds (df : DataFrame) :
  (forall r y, In r df -> year_erupted r = Some y ->
               (query3_min_year df <= y)%Z)
  /\ ((exists r, In r df /\ year_erupted r <> None) ->
      exists r, In r df /\ year_erupted r = Some (query3_min_year df))
  /\ ((forall r, In r df -> year_erupted r = None) ->
      query3_min_year df = 0%Z).
Proof.
  unfold query3_min_year.
  pose proof (In_dropna (map year_erupted df)) as Hdrop.
  destruct (dropna (map year_erupted df)) as [|y0 ys].
  - repeat split.
    + intros r y Hin Hy. exfalso. apply (proj2 (Hdrop y)).
      rewrite <- Hy. now apply in_map.
    + intros (r & Hin & Hy). exfalso.
      destruct (year_erupted r) as [y|] eqn:E; [|congruence].
      apply (proj2 (Hdrop y)). rewrite <- E. now apply in_map.
  - destruct (series_min_le ys y0) as (Hle & Hall & Hmin).
    repeat split.
    + intros r y Hin Hy.
      assert (Hy' : In y (y0 :: ys)).
      { apply Hdrop. rewrite <- Hy. now apply in_map. }
      destruct Hy' as [<-|Hy']; [exact Hle|].
      rewrite Forall_forall in Hall. now apply Hall.
    + intros _. apply Hdrop in Hmin. apply in_map_iff in Hmin.
      destruct Hmin as (r & Hr & Hin). now exists r.
    + intros Hnone. exfalso.
      assert (H0 : In (Some y0) (map year_erupted df))
        by (apply Hdrop; now left).
      apply in_map_iff in H0. destruct H0 as (r & Hr & Hin).
      rewrite (Hnone r Hin) in Hr. discriminate.
Qed.

(** X12.  The lower end of the year slider is the earliest year in the table:
    no row has an earlier year, and some row has that year.  When no row
    has a year it is 0. *)
Theorem query3_min_year_spec (df : DataFrame) :
  (forall r y, In r df -> year_erupted r = Some y ->
               (query3_min_year df <= y)%Z)
  /\ ((exists r, In r df /\ year_erupted r <> None) ->
      exists r, In r df /\ year_erupted r = Some (query3_min_year df))
  /\ ((forall r, In r df -> year_erupted r = None) ->
      query3_min_year df = 0%Z).
Proof. exact (query3_min_year_bounds df). Qed.

(** X13.  With the slider left as it starts and no tectonic setting chosen,
    [query3] shows exactly the rows that have a year of at most 2025:
    the lower end leaves no dated row out. *)
Theorem query3_default_range (df : DataFrame) :
  Selects (fun r => exists y, year_erupted r = Some y /\ (y <= 2025)%Z)
    df (fst (query3 df (query3_default_years df) setting_placeholder)).
Proof.
  cbn [query3 fst]. unfold query3_default_years.
  change (query3_filtered df (query3_min_year df, 2025%Z) setting_placeholder)
    with (filterByYearRange df (query3_min_year df) 2025).
  rewrite filterByYearRange_filter.
  assert (Hext : filter (year_between (query3_min_year df) 2025) df
                 = filter (fun r => match year_erupted r with
                                    | Some y => (y <=? 2025)%Z
                                    | None => false
                                    end) df).
  { apply filter_ext_in. intros r Hin. unfold year_between.
    destruct (year_erupted r) as [y|] eqn:Hy; [|reflexivity].
    pose proof (proj1 (query3_min_year_bounds df) r y Hin Hy) as Hle.
    apply Z.leb_le in Hle. now rewrite Hle. }
  rewrite Hext. apply filter_Selects. intros r.
  destruct (year_erupted r) as [y|].
  - rewrite Z.leb_le. split.
    + intros H. now exists y.
    + intros (y' & E & H). now injection E as <-.
  - split; [discriminate|]. now intros (y & E & _).
Qed.

(** ** The sentence of [query2] *)

Lemma arithmetic_mean_None (vals : list Z) :
  arithmetic_mean vals = None <-> vals = [].
Proof. destruct vals; simpl; split; congruence. Qed.

Lemma sum_at_least (h : Z) (vals : list Z) :
  Forall (fun e => (h <= e)%Z) vals ->
  (h * Z.of_nat (List.length vals) <= fold_right Z.add 0 vals)%Z.
Proof.
  induction 1 as [|e vals He _ IH]; simpl fold_right; [simpl; lia|].
  cbn [List.length]. rewrite Nat2Z.inj_succ. lia.
Qed.

Lemma arithmetic_mean_at_least (h : Z) (vals : list Z) (m : Q) :
  Forall (fun e => (h <= e)%Z) vals ->
  arithmetic_mean vals = Some m -> (inject_Z h <= m)%Q.
Proof.
  intros Hall Hm. destruct vals as [|v vals]; [discriminate|].
  cbn [arithmetic_mean] in Hm. injection Hm as <-.
  apply Qle_shift_div_l.
  - change 0%Q with (inject_Z 0). rewrite <- Zlt_Qlt.
    cbn [List.length]. lia.
  - rewrite <- inject_Z_mult, <- Zle_Qle.
    exact (sum_at_least h (v :: vals) Hall).
Qed.

Lemma all_elevations_at_least (h : Z) (df : DataFrame) :
  (forall r, In r df -> elevation_ge h r = true) ->
  Forall (fun e => (h <= e)%Z) (all_elevations df)
  /\ List.length (all_elevations df) = List.length df.
Proof.
  induction df as [|r df IH]; simpl; intros Hge; [split; constructor|].
  destruct IH as [IHge IHlen]; [auto|].
  pose proof (Hge r (or_introl eq_refl)) as Hr. unfold elevation_ge in Hr.
  destruct (elevation r) as [e|]; [|discriminate].
  apply Z.leb_le in Hr. split; [now constructor|simpl; now f_equal].
Qed.

Lemma query2_filtered_rows (df : DataFrame) (R : string) (h : Z) (r : Row) :
  In r (query2_filtered df R h) ->
  elevation_ge h r = true
  /\ (R <> region_placeholder -> region_is R r = true).
Proof.
  rewrite query2_filtered_filter.
  destruct (String.eqb_spec R region_placeholder) as [->|Hne];
    rewrite filter_In.
  - intros [_ Hge]. split; [exact Hge|contradiction].
  - rewrite andb_true_iff. intros [_ [Hr Hge]]. now split.
Qed.

(** X14.  When a region is selected, the count in the sentence of [query2] is
    the number of rows of the table above it, the mean is the arithmetic
    mean of the elevations in that table, and the mean is undefined
    exactly when the table is empty. *)
Theorem query2_sentence_matches_table (df : DataFrame) (R : string)
  (h : Z) :
  R <> region_placeholder ->
  snd (query2 df R h)
  = (List.length (fst (query2 df R h)),
     arithmetic_mean (all_elevations (fst (query2 df R h))))
  /\ (snd (snd (query2 df R h)) = None <-> fst (query2 df R h) = []).
Proof.
  intros HR. cbn [query2 fst snd].
  set (filtered := query2_filtered df R h).
  assert (Hrows : forall r, In r filtered ->
                            elevation_ge h r = true /\ region_is R r = true).
  { intros r Hin. destruct (query2_filtered_rows _ _ _ _ Hin). auto. }
  assert (Hcount : count_and_average_height filtered R
                   = (List.length filtered,
                      arithmetic_mean (all_elevations filtered))).
  { destruct (string_dec R "All") as [->|HAll].
    - apply count_and_average_height_All.
    - rewrite (count_and_average_height_region _ _ HAll).
      rewrite region_count_filter, region_elevations_filter.
      rewrite filter_all; [reflexivity|]. intros r Hin. now apply Hrows. }
  split; [exact Hcount|].
  rewrite Hcount. cbn [snd]. rewrite arithmetic_mean_None.
  destruct (all_elevations_at_least h filtered) as [_ Hlen].
  { intros r Hin. now apply Hrows. }
  split; intros E.
  - rewrite E in Hlen. destruct filtered; [reflexivity|discriminate].
  - rewrite E. reflexivity.
Qed.

Lemma query2_sentence_matches_table_witness :
  snd (query2 sample_table "Africa" 50)
  = (2%nat, Some (inject_Z 3100 / inject_Z 2)%Q).
Proof.
  rewrite (proj1 (query2_sentence_matches_table sample_table "Africa" 50
                    ltac:(discriminate))).
  reflexivity.
Defined.

(** X15.  Whatever the region entry, a mean that [query2] reports is at least
    the minimum elevation asked for. *)
Theorem query2_mean_at_least_height (df : DataFrame) (R : string) (h : Z)
  (m : Q) :
  snd (snd (query2 df R h)) = Some m -> (inject_Z h <= m)%Q.
Proof.
  cbn [query2 fst snd]. unfold count_and_average_height. cbn [snd].
  set (filtered := query2_filtered df R h).
  set (used := if negb (String.eqb R "All")
               then select_region filtered R else filtered).
  rewrite series_mean_elevation.
  apply arithmetic_mean_at_least.
  apply all_elevations_at_least. intros r Hin.
  assert (Hf : In r filtered).
  { unfold used in Hin. destruct (negb (String.eqb R "All")); [|exact Hin].
    rewrite select_region_filter in Hin. now apply filter_In in Hin. }
  now destruct (query2_filtered_rows _ _ _ _ Hf).
Qed.

Lemma query2_mean_at_least_height_witness :
  (inject_Z 2000 <= inject_Z 3000 / inject_Z 1)%Q.
Proof.
  apply (query2_mean_at_least_height sample_table "Africa" 2000).
  reflexivity.
Defined.

(** ** The entries of the select boxes *)

Lemma unique_snoc (col : list string) (v : string) :
  unique (col ++ [v]) = unique_step (unique col) v.
Proof. unfold unique. now rewrite fold_left_app. Qed.

Lemma unique_step_In (seen : list string) (v x : string) :
  In x (unique_step seen v) <-> In x seen \/ x = v.
Proof.
  unfold unique_step.
  destruct (existsb (String.eqb v) seen) eqn:E.
  - split; [auto|]. intros [H| ->]; [exact H|].
    apply existsb_exists in E. destruct E as (w & Hin & Heq).
    apply String.eqb_eq in Heq. now subst w.
  - rewrite in_app_iff. simpl. intuition congruence.
Qed.

Lemma unique_In (col : list string) (x : string) :
  In x (unique col) <-> In x col.
Proof.
  induction col as [|v col IH] using rev_ind; [reflexivity|].
  rewrite unique_snoc, unique_step_In, IH, in_app_iff. simpl.
  intuition congruence.
Qed.

Lemma unique_NoDup (col : list string) : NoDup (unique col).
Proof.
  induction col as [|v col IH] using rev_ind; [constructor|].
  rewrite unique_snoc. unfold unique_step.
  destruct (existsb (String.eqb v) (unique col)) eqn:E; [exact IH|].
  apply NoDup_app; [exact IH|repeat constructor; simpl; tauto|].
  intros x Hx [<-|[]].
  assert (Hex : existsb (String.eqb v) (unique col) = true); [|congruence].
  apply existsb_exists. exists v. split; [exact Hx|apply String.eqb_refl].
Qed.

Lemma insert_str_perm (x : string) (l : list string) :
  Permutation (x :: l) (insert_str x l).
Proof.
  induction l as [|y l IH]; simpl; [reflexivity|].
  destruct (String.leb x y); [reflexivity|].
  rewrite perm_swap. now apply perm_skip.
Qed.

Lemma sorted_perm (l : list string) : Permutation l (sorted l).
Proof.
  induction l as [|x l IH]; simpl; [constructor|].
  rewrite <- insert_str_perm. now apply perm_skip.
Qed.

Lemma insert_str_Sorted (x : string) (l : list string) :
  Sorted (fun a b => String.leb a b = true) l ->
  Sorted (fun a b => String.leb a b = true) (insert_str x l).
Proof.
  induction l as [|y l IH]; simpl; intros Hs.
  - repeat constructor.
  - destruct (String.leb x y) eqn:E.
    + constructor; [exact Hs|now constructor].
    + apply Sorted_inv in Hs. destruct Hs as [Hs Hhd].
      constructor; [now apply IH|].
      assert (Hyx : String.leb y x = true).
      { destruct (String.leb_total x y); congruence. }
      destruct l as [|z l]; simpl.
      * now constructor.
      * destruct (String.leb x z); constructor; [exact Hyx|].
        now inversion Hhd.
Qed.

Lemma sorted_Sorted (l : list string) :
  Sorted (fun a b => String.leb a b = true) (sorted l).
Proof.
  induction l as [|x l IH]; simpl; [constructor|].
  now apply insert_str_Sorted.
Qed.

Lemma options_list_values (col : list (option string)) :
  lists_values col (sorted (unique (dropna col))).
Proof.
  split; [apply sorted_Sorted|]. split.
  - apply (Permutation_NoDup (sorted_perm _)). apply unique_NoDup.
  - intros v. split; intros H.
    + apply In_dropna, unique_In.
      exact (Permutation_in _ (Permutation_sym (sorted_perm _)) H).
    + apply (Permutation_in _ (sorted_perm _)).
      now apply unique_In, In_dropna.
Qed.

(** X16.  Each select box offers, after its placeholder, the values of its
    column: every non-null value of the table once, in increasing order
    of text, and nothing else.  The type multiselect offers the values of
    the type column the same way, with no placeholder. *)
Theorem select_box_options (df : DataFrame) :
  (exists opts, region_options df = region_placeholder :: opts
                /\ lists_values (map volcanic_region df) opts)
  /\ (exists opts, setting_options df = setting_placeholder :: opts
                   /\ lists_values (map tectonic_setting df) opts)
  /\ lists_values (map primary_volcano_type df) (type_options df).
Proof.
  split; [|split].
  - eexists. split; [reflexivity|apply options_list_values].
  - eexists. split; [reflexivity|apply options_list_values].
  - apply options_list_values.
Qed.

(** X17.  Every entry of the region box shows at least one row of a table that
    has rows: a listed region is the region of some row. *)
Theorem listed_region_shows_rows (df : DataFrame) (R : string) :
  In R (region_options df) -> df <> [] -> filterByRegion df R <> [].
Proof.
  intros Hin Hdf. unfold filterByRegion.
  destruct (String.eqb_spec R region_placeholder) as [->|Hne];
    [exact Hdf|].
  destruct Hin as [E|Hin]; [congruence|].
  apply (options_list_values (map volcanic_region df)) in Hin.
  apply in_map_iff in Hin. destruct Hin as (r & Hr & Hin).
  rewrite select_region_filter. intros Hnil.
  assert (Hr' : In r (filter (region_is R) df)).
  { apply filter_In. split; [exact Hin|now apply region_is_true]. }
  rewrite Hnil in Hr'. exact Hr'.
Qed.

Lemma listed_region_shows_rows_witness :
  region_options sample_table = [region_placeholder; "Africa"; "Asia"]
  /\ filterByRegion sample_table "Asia" <> [].
Proof.
  split; [reflexivity|].
  apply listed_region_shows_rows; [|discriminate].
  right. right. now left.
Defined.

(** ** The bars of [query1] and [query4] *)

Lemma count_of_In (k : string) (tbl : list (string * nat)) :
  In k (map fst tbl) -> In (k, count_of k tbl) tbl.
Proof.
  induction tbl as [|[k' n] tbl IH]; simpl; [intros []|].
  intros Hin. destruct (String.eqb_spec k k') as [->|Hne]; [now left|].
  right. apply IH. destruct Hin as [E|Hin]; [congruence|exact Hin].
Qed.

Lemma dropna_app {A : Type} (a b : list (option A)) :
  dropna (a ++ b) = dropna a ++ dropna b.
Proof.
  induction a as [|[v|] a IH]; simpl; [reflexivity| |exact IH].
  now rewrite IH.
Qed.

Lemma hash_value_count_sum_dropna (col : list (option string)) :
  sum_counts (hash_value_count col) = List.length (dropna col).
Proof.
  induction col as [|cell col IH] using rev_ind; [reflexivity|].
  rewrite hash_value_count_snoc, dropna_app, length_app.
  destruct cell as [s|]; simpl; [rewrite sum_counts_insert|]; lia.
Qed.

Lemma occurrences_pos_In (k : string) (col : list (option string)) :
  (0 < occurrences k col)%nat -> In (Some k) col.
Proof.
  induction col as [|[s|] col IH]; simpl; [lia| |auto].
  destruct (string_dec s k) as [->|Hne]; auto.
Qed.

Lemma occurrences_filter (k : string) (p : Row -> bool) (df : DataFrame) :
  (occurrences k (map primary_volcano_type (filter p df))
   <= occurrences k (map primary_volcano_type df))%nat.
Proof.
  induction df as [|r df IH]; simpl; [lia|].
  destruct (p r); simpl; destruct (primary_volcano_type r) as [s|];
    try destruct (string_dec s k); lia.
Qed.

Section Bars.

Variable sort : list (string * nat) -> list (string * nat).
Hypothesis sort_descending : descending_sort sort.

Lemma value_counts_complete (col : list (option string)) (k : string) :
  In (Some k) col -> In (k, occurrences k col) (value_counts sort col).
Proof.
  intros Hin. unfold value_counts.
  apply (Permutation_in _ (proj1 sort_descending (hash_value_count col))).
  rewrite <- hash_value_count_count_of. apply count_of_In.
  now apply hash_value_count_keys.
Qed.

Lemma value_counts_sum (col : list (option string)) :
  sum_counts (value_counts sort col) = List.length (dropna col).
Proof.
  unfold value_counts.
  rewrite <- (sum_counts_Permutation _ _
                (proj1 sort_descending (hash_value_count col))).
  apply hash_value_count_sum_dropna.
Qed.

(** X18.  The bars of [query1] leave nothing out: every type met among the
    rows of the selected region has a bar with the number of those rows
    that have it, and the bars add up to the number of those rows that
    have a type at all. *)
Theorem query1_type_counts_complete (df : DataFrame) (region : string) :
  (forall k,
      In (Some k) (map primary_volcano_type (filterByRegion df region)) ->
      In (k, occurrences k
               (map primary_volcano_type (filterByRegion df region)))
         (query1_type_counts sort df region))
  /\ sum_counts (query1_type_counts sort df region)
     = List.length
         (dropna (map primary_volcano_type (filterByRegion df region))).
Proof.
  split.
  - intros k. apply value_counts_complete.
  - apply value_counts_sum.
Qed.

(** X19.  The first bar [topCategoryCounts] returns is a most common category:
    no category has more rows in the table than its count. *)
Theorem top_category_most_common (df : DataFrame) (N : nat) (k : string)
  (n : nat) (rest : list (string * nat)) :
  topCategoryCounts sort df N = (k, n) :: rest ->
  forall k', (occurrences k' (map primary_volcano_type df) <= n)%nat.
Proof.
  intros Htop k'. unfold topCategoryCounts, head in Htop.
  set (col := map primary_volcano_type df) in *.
  destruct N as [|N]; [discriminate|].
  destruct (value_counts sort col) as [|p l] eqn:Hvc; [discriminate|].
  simpl in Htop. injection Htop as -> _.
  pose proof (Sorted_StronglySorted count_ge_trans
                (proj2 sort_descending (hash_value_count col))) as Hs.
  fold (value_counts sort col) in Hs. rewrite Hvc in Hs.
  apply StronglySorted_inv in Hs. destruct Hs as [_ Hall].
  destruct (Nat.eq_dec (occurrences k' col) 0) as [E|E]; [lia|].
  assert (Hin : In (k', occurrences k' col) (value_counts sort col)).
  { apply value_counts_complete. apply occurrences_pos_In. lia. }
  rewrite Hvc in Hin. destruct Hin as [E'|Hin].
  - injection E' as _ ->. lia.
  - rewrite Forall_forall in Hall. exact (Hall _ Hin).
Qed.

(** X20.  Every bar of [query4] stands for a type that at least one counted
    row has; its height is the number of counted rows of that type,
    which is no more than the rows of that type in the whole table; and
    when types are chosen, the bar is for one of them. *)
Theorem query4_bars (df : DataFrame) (types : list string)
  (region : string) (known_only : bool) (k : string) (n : nat) :
  In (k, n) (query4 sort df types region known_only) ->
  (0 < n)%nat
  /\ n = occurrences k
           (map primary_volcano_type
              (query4_filtered df types region known_only))
  /\ (n <= occurrences k (map primary_volcano_type df))%nat
  /\ (types <> [] -> In k types).
Proof.
  intros Hin. unfold query4, topCategoryCounts, head in Hin.
  set (filtered := query4_filtered df types region known_only) in *.
  assert (Hvc : In (k, n)
                  (value_counts sort (map primary_volcano_type filtered))).
  { rewrite <- (firstn_skipn 10). apply in_or_app. now left. }
  destruct (value_counts_In sort sort_descending _ _ _ Hvc) as [Hn Hpos].
  split; [exact Hpos|]. split; [exact Hn|]. split.
  - rewrite Hn. unfold filtered. rewrite query4_filtered_filter.
    apply occurrences_filter.
  - intros Htypes. rewrite Hn in Hpos. apply occurrences_pos_In in Hpos.
    apply in_map_iff in Hpos. destruct Hpos as (r & Hr & Hrin).
    unfold filtered in Hrin. rewrite query4_filtered_filter in Hrin.
    apply filter_In in Hrin. destruct Hrin as [_ Hkeep].
    apply query4_keeps_b_true in Hkeep.
    destruct Hkeep as (_ & _ & Ht).
    destruct (Ht Htypes) as (t & Hty & Htin). congruence.
Qed.

End Bars.

Lemma top_category_most_common_witness :
  (occurrences "Stratovolcano" (map primary_volcano_type tied_types)
   <= 2)%nat.
Proof.
  apply (top_category_most_common sort_values_stable
           sort_values_stable_descending tied_types 10 "Shield" 2
           [("Stratovolcano", 1%nat); ("Caldera", 1%nat)]).
  reflexivity.
Defined.

Lemma query1_type_counts_complete_witness :
  sum_counts (query1_type_counts sort_values_stable tied_types
                region_placeholder) = 4%nat.
Proof.
  rewrite (proj2 (query1_type_counts_complete sort_values_stable
                    sort_values_stable_descending tied_types
                    region_placeholder)).
  reflexivity.
Defined.

Lemma query4_bars_witness :
  In "Shield" ["Shield"; "Caldera"].
Proof.
  apply (query4_bars sort_values_stable sort_values_stable_descending
           tied_types ["Shield"; "Caldera"] region_placeholder false
           "Shield" 2).
  - now left.
  - discriminate.
Defined.

(** X21.  With no type chosen and the eruption box unticked, the bars of
    [query4] are the first ten bars of [query1] for the same region
    entry. *)
Theorem query4_unfiltered_is_query1
  (sort : list (string * nat) -> list (string * nat))
  (df : DataFrame) (region : string) :
  query4 sort df [] region false
  = head 10 (query1_type_counts sort df region).
Proof.
  unfold query4, topCategoryCounts, query1_type_counts.
  assert (E : query4_filtered df [] region false = filterByRegion df region).
  { unfold query4_filtered, filterByRegion.
    now destruct (String.eqb region region_placeholder). }
  now rewrite E.
Qed.

(** ** The list under the bars of [query1] *)

Lemma named_in_Ok_In (names : list (option string)) :
  forall out,
    named_in names = Ok out ->
    forall name, In name out <->
                 In (Some name) names /\ is_substring "Mount" name.
Proof.
  induction names as [|[n|] names IH]; simpl; intros out Hout name.
  - injection Hout as <-. simpl. tauto.
  - destruct (str_contains "Mount" n) eqn:E.
    + destruct (named_in names) as [tl|e]; [|discriminate].
      simpl in Hout. injection Hout as <-. simpl.
      rewrite (IH tl eq_refl). split.
      * intros [<-|[Hin Hsub]]; [|tauto].
        split; [now left|now apply str_contains_substring].
      * intros [[Heq|Hin] Hsub]; [left; congruence|tauto].
    + rewrite (IH out Hout). split; [tauto|].
      intros [[Heq|Hin] Hsub]; [|tauto].
      injection Heq as ->. apply str_contains_substring in Hsub. congruence.
  - discriminate.
Qed.

(** X7.  When [query1] succeeds, the rows it keeps are those of the region
    filter, and the names it lists are exactly the names of kept rows in
    which "Mount" occurs: no name of another region is listed and no
    such name of this region is missing. *)
Theorem query1_lists_region_names (df : DataFrame) (region : string)
  (rows : DataFrame) (names : list string) :
  query1 df region = Ok (rows, names) ->
  rows = filterByRegion df region
  /\ forall name,
       In name names <->
       (exists r, In r rows /\ volcano_name r = Some name)
       /\ is_substring "Mount" name.
Proof.
  unfold query1, get_named_volcanoes. intros Hq.
  destruct (named_in (map volcano_name (filterByRegion df region)))
    as [out|e] eqn:Hout; [|discriminate].
  simpl in Hq. injection Hq as <- <-. split; [reflexivity|].
  intros name. rewrite (named_in_Ok_In _ _ Hout name), in_map_iff.
  split; intros [(r & H1 & H2) Hsub]; (split; [exists r; tauto|exact Hsub]).
Qed.

Lemma query1_lists_region_names_witness :
  query1 [ sample_row (Some "Mount Etna") (Some "Europe") None None None;
           sample_row (Some "Mount Fuji") (Some "Asia") None None None ]
    "Europe"
  = Ok ([sample_row (Some "Mount Etna") (Some "Europe") None None None],
        ["Mount Etna"])
  /\ In "Mount Etna" ["Mount Etna"].
Proof.
  split; [reflexivity|].
  apply (proj2 (query1_lists_region_names
                  [ sample_row (Some "Mount Etna") (Some "Europe")
                      None None None;
                    sample_row (Some "Mount Fuji") (Some "Asia")
                      None None None ]
                  "Europe"
                  [sample_row (Some "Mount Etna") (Some "Europe")
                     None None None]
                  ["Mount Etna"] eq_refl)).
  split.
  - eexists. split; [now left|reflexivity].
  - now exists "", " Etna".
Defined.
